(** * Pioneer air-conditioner serial protocol: temperature codec, XOR
      checksum and command-frame encoder.

    Shallow embedding of the free functions of the Pioneer climate
    component ([tempToPioneerHex], [fromPioneerHex], [calc_xor_checksum],
    [check_xor_checksum], [get_unknown_message], [generate_message]) and
    the properties of the protocol description that concern them.

    Conventions.
    - An [unsigned char] is a [Z] in [0, 256); conversions to it are
      written [to_uchar].
    - A [double] holding a temperature is a rational [Q]: the operations
      applied to it (multiplication and division by 4, [floor], subtraction
      of its own floor, comparison with 16 and 31) are exact on the finite
      doubles, so they coincide with the same operations on rationals.
      Equality of doubles is [Qeq] ([==]).  NaN and the infinities are not
      represented: the model is that of the source while [num * 4] is
      finite ([times_4_finite]) and the truncated value is an [int]
      ([in_int_range]), and the statements about the codec are made inside
      these bounds.
    - A [std::vector<unsigned char>] is a [list Z]; [v[i]] is stdpp's list
      lookup.  [operator[]] performs no bounds check: a store through an
      index past the end does not touch any element of the vector, it is
      recorded in a separate log of stray accesses.  Where such a store
      lands is described by [memory_after_stores].  [generate_message]
      gives the content of the vector; it is what the call returns when
      the stores past the end write back the bytes they read, which they
      do when both swing settings are Auto (code 0).  Statements about the
      returned frame are made for those calls. *)

From Stdlib Require Import ZArith QArith Qround Lia Bool.
From stdpp Require Import base list.

Local Open Scope Z_scope.

(** ** Enumerations (pioneer.h) *)

Module SleepMode.
Inductive t := OFF | STANDARD | THE_AGED | CHILD.
Definition code (m : t) : Z :=
    match m with
    | OFF => 0x0 | STANDARD => 0x1 | THE_AGED => 0x2 | CHILD => 0x3
    end.
End SleepMode.

Module WindSpeed.
Inductive t := AUTO | ONE | TWO | THREE | FOUR | FIVE | SIX | MUTE.
Definition code (w : t) : Z :=
    match w with
    | AUTO => 0 | ONE => 1 | TWO => 2 | THREE => 3
    | FOUR => 4 | FIVE => 5 | SIX => 6 | MUTE => 7
    end.
End WindSpeed.

Module Mode.
Inductive t := HEAT | DEHUMIDIFY | COOL | FAN | AUTO.
Definition code (m : t) : Z :=
    match m with
    | HEAT => 0x1 | DEHUMIDIFY => 0x2 | COOL => 0x3 | FAN => 0x7 | AUTO => 0x8
    end.
End Mode.

Module FanUpDown.
Inductive t :=
  | AUTO | UP_DOWN_FLOW | UP_FLOW | DOWN_FLOW
  | TOP_FIX | UPPER_FIX | MIDDLE_FIX | ABOVE_DOWN_FIX | BOTTOM_FIX.
Definition code (m : t) : Z :=
    match m with
    | AUTO => 0x0 | UP_DOWN_FLOW => 0x18 | UP_FLOW => 0x10 | DOWN_FLOW => 0x08
    | TOP_FIX => 0x01 | UPPER_FIX => 0x02 | MIDDLE_FIX => 0x03
    | ABOVE_DOWN_FIX => 0x04 | BOTTOM_FIX => 0x05
    end.
Definition is_flow (m : t) : bool :=
    match m with
    | UP_DOWN_FLOW | UP_FLOW | DOWN_FLOW => true
    | _ => false
    end.
End FanUpDown.

Module FanLeftRight.
Inductive t :=
  | AUTO | LEFT_RIGHT_FLOW | LEFT_FLOW | MIDDLE_FLOW | RIGHT_FLOW
  | LEFT_FIX | LEFT_MIDDLE_FIX | MIDDLE_FIX | RIGHT_MIDDLE_FIX | RIGHT_FIX.
Definition code (m : t) : Z :=
    match m with
    | AUTO => 0x0 | LEFT_RIGHT_FLOW => 0x08 | LEFT_FLOW => 0x10
    | MIDDLE_FLOW => 0x18 | RIGHT_FLOW => 0x20
    | LEFT_FIX => 0x01 | LEFT_MIDDLE_FIX => 0x02 | MIDDLE_FIX => 0x3
    | RIGHT_MIDDLE_FIX => 0x4 | RIGHT_FIX => 0x5
    end.
Definition is_flow (m : t) : bool :=
    match m with
    | LEFT_RIGHT_FLOW | LEFT_FLOW | MIDDLE_FLOW | RIGHT_FLOW => true
    | _ => false
    end.
End FanLeftRight.

(** ** Machine-level helpers *)

(** [static_cast<unsigned char>] of an integer. *)
Definition to_uchar (z : Z) : Z := z mod 256.

Definition is_byte (z : Z) : Prop := 0 <= z < 256.

(** [floor] on doubles, as a rational. *)
Definition floorQ (x : Q) : Q := inject_Z (Qfloor x).

(** [static_cast<int>] of a double: truncation towards zero (the values
    that reach it here are far inside the range of [int]). *)
Definition castQ_int (x : Q) : Z :=
  if Qle_bool 0 x then Qfloor x else Qceiling x.

(** The comparison [x < y] on doubles. *)
Definition Qltb (x y : Q) : bool := negb (Qle_bool y x).

(** [m[k]] on a [std::unordered_map<double, unsigned char>] given by its
    initializer list: the value bound to the first key equal to [k],
    the value-initialised 0 when there is none. *)
Fixpoint at_double_key (m : list (Q * Z)) (k : Q) : Z :=
  match m with
  | [] => 0
  | (k', v) :: m' => if Qeq_bool k' k then v else at_double_key m' k
  end.

(** [m[k]] on a map with integer keys and a value type [V] whose
    value-initialisation is [dflt]. *)
Fixpoint at_int_key {V : Type} (dflt : V) (m : list (Z * V)) (k : Z) : V :=
  match m with
  | [] => dflt
  | (k', v) :: m' => if Z.eqb k' k then v else at_int_key dflt m' k
  end.

(** ** Temperature codec *)

Definition toNearestQuarter (num : Q) : Q :=
  (floorQ (num * 4) / 4)%Q.

Definition tempToPioneerHex (celsius : Q) : list Z :=
  let celsius := toNearestQuarter celsius in
  let first_nibble := to_uchar (31 - castQ_int celsius) in
  let final_nibble_options : list (Q * Z) :=
    [(0%Q, 0x0); (1 # 4, 0x4); (1 # 2, 0x8); (3 # 4, 0xc)] in
  let final_nibble :=
    at_double_key final_nibble_options (celsius - floorQ celsius)%Q in
  [first_nibble; final_nibble].

Definition nibbleToHexInt (nibble : Z) : Z := to_uchar nibble.

Definition fromPioneerHex (first_nibble last_nibble : Z) : Q :=
  let final_nibble_options : list (Z * Q) :=
    [(0x0, 0%Q); (0x4, 1 # 4); (0x8, 1 # 2); (0xc, 3 # 4)] in
  ((31 - inject_Z first_nibble)
   + at_int_key 0%Q final_nibble_options last_nibble)%Q.

(** ** XOR checksum *)

Definition calc_xor_checksum (my_bytes : list Z) : Z :=
  fold_left (fun result byte => Z.lxor result byte) my_bytes 0.

(** [back()] followed by [pop_back()] needs a non-empty vector; on the
    empty one the function has no defined result. *)
Definition check_xor_checksum (my_bytes : list Z) : option bool :=
  match last my_bytes with
  | None => None
  | Some current_checksum =>
      let my_bytes := removelast my_bytes in
      let result := fold_left (fun result byte => Z.lxor result byte) my_bytes 0 in
      Some (result =? current_checksum)
  end.

(** ** Fixed informational frames *)

Definition messages : list (list Z) :=
  [ [0xbb; 0x00; 0x01; 0x04; 0x02; 0x01; 0x00; 0xbd];
    [0xbb; 0x00; 0x01; 0x0a; 0x03; 0x05; 0x00; 0x00; 0xb6];
    [0xbb; 0x00; 0x01; 0x09; 0x02; 0x05; 0x00; 0xb4];
    [0xbb; 0x00; 0x01; 0x0a; 0x03; 0x05; 0x00; 0x08; 0xbe] ].

(** [messages[num - 1]]: the index is converted to an unsigned size, so a
    negative [num - 1] is past the end like any index from 4 on.  [None]
    stands for the access outside the table. *)
Definition get_unknown_message (num : Z) : option (list Z) :=
  if num - 1 <? 0 then None else messages !! Z.to_nat (num - 1).

(** ** The command vector and its unchecked accesses *)

(** The local vector [command] together with the indices of the accesses
    that fell outside it, in program order. *)
Record vec_state := VecState {
  elems : list Z;
  stray : list nat
}.

(** [v[i] = f (v[i])] through the unchecked [operator[]]. *)
Definition vec_modify (i : nat) (f : Z -> Z) (s : vec_state) : vec_state :=
  match elems s !! i with
  | Some x => VecState (<[i := f x]> (elems s)) (stray s)
  | None => VecState (elems s) (stray s ++ [i])
  end.

(** [v[i] = v[i] | x] *)
Definition or_at (i : nat) (x : Z) : vec_state -> vec_state :=
  vec_modify i (fun b => to_uchar (Z.lor b x)).

(** [v[i] = v[i] & x] *)
Definition and_at (i : nat) (x : Z) : vec_state -> vec_state :=
  vec_modify i (fun b => to_uchar (Z.land b x)).

(** [if (c) { body }] *)
Definition when (c : bool) (body : vec_state -> vec_state) (s : vec_state)
  : vec_state :=
  if c then body s else s.

(** ** Frame encoder *)

Definition header : list Z := [0xbb; 0x00; 0x01; 0x03].

Definition command_template : list Z :=
  [0x00; 0x00; 0x00; 0x00; 0x5c; 0x00; 0x04; 0x80; 0x00; 0x00; 0x00; 0x00;
   0x00; 0x00; 0x00; 0x00; 0x00; 0x00; 0x00; 0x00; 0x00; 0x00; 0x80; 0x99].

Definition speeds : list (Z * Z) :=
  [(1, 0x2); (2, 0x06); (3, 0x03); (4, 0x07); (5, 0x05)].

(** The six boolean flags and the sleep mode. *)
Definition set_flags (sleep_mode : SleepMode.t)
    (is_on is_display_on is_buzzer_on is_eco is_8_deg_heater is_health_on : bool)
    (s : vec_state) : vec_state :=
  let s := when is_on (or_at 3 0x04) s in
  let s := when is_display_on (or_at 3 0x40) s in
  let s := when is_buzzer_on (or_at 3 0x20) s in
  let s := when is_eco (or_at 3 0x80) s in
  let s := when is_8_deg_heater (or_at 6 0x80) s in
  let s := when is_health_on (or_at 4 0x10) s in
  or_at 15 (SleepMode.code sleep_mode) s.

(** The [if]/[else if] chain on the fan speed. *)
Definition set_wind_speed (wind_speed : WindSpeed.t) (s : vec_state)
  : vec_state :=
  match wind_speed with
  | WindSpeed.AUTO => s
  | WindSpeed.MUTE =>
      let s := or_at 4 0x80 s in
      or_at 6 0x02 s
  | WindSpeed.SIX =>
      let s := or_at 4 0x40 s in
      or_at 6 0x05 s
  | _ =>
      let s := and_at 4 (Z.lnot 0xc0) s in
      or_at 6 (at_int_key 0 speeds (WindSpeed.code wind_speed)) s
  end.

Definition set_mode (mode : Mode.t) : vec_state -> vec_state :=
  or_at 4 (Mode.code mode).

(** Temperature bytes and the two swing settings. *)
Definition set_temp_and_swing (temp_celsius : Q)
    (up_down_mode : FanUpDown.t) (left_right_mode : FanLeftRight.t)
    (s : vec_state) : vec_state :=
  let temp_bytes := tempToPioneerHex temp_celsius in
  let s := or_at 9 (temp_bytes !!! 0%nat) s in
  let s := or_at 11 (temp_bytes !!! 1%nat) s in
  let s := when (FanUpDown.is_flow up_down_mode) (or_at 6 0x38) s in
  let s := or_at 28 (FanUpDown.code up_down_mode) s in
  let s := when (FanLeftRight.is_flow left_right_mode) (or_at 7 0x8) s in
  or_at 29 (FanLeftRight.code left_right_mode) s.

(** The state of [command] when the copying loop is reached. *)
Definition final_command (mode : Mode.t) (temp_celsius : Q)
    (wind_speed : WindSpeed.t) (up_down_mode : FanUpDown.t)
    (left_right_mode : FanLeftRight.t) (sleep_mode : SleepMode.t)
    (is_on is_display_on is_buzzer_on is_eco is_8_deg_heater is_health_on : bool)
  : vec_state :=
  let s := VecState command_template [] in
  let s := set_flags sleep_mode is_on is_display_on is_buzzer_on is_eco
             is_8_deg_heater is_health_on s in
  let s := set_wind_speed wind_speed s in
  let s := set_mode mode s in
  set_temp_and_swing temp_celsius up_down_mode left_right_mode s.

(** The guard at the head of [generate_message]. *)
Definition out_of_range (temp_celsius : Q) : bool :=
  Qltb 31 temp_celsius || Qltb temp_celsius 16.

(** The frame returned by [generate_message]: empty when the temperature
    is refused. *)
Definition generate_message (mode : Mode.t) (temp_celsius : Q)
    (wind_speed : WindSpeed.t) (up_down_mode : FanUpDown.t)
    (left_right_mode : FanLeftRight.t) (sleep_mode : SleepMode.t)
    (is_on is_display_on is_buzzer_on is_eco is_8_deg_heater is_health_on : bool)
  : list Z :=
  if out_of_range temp_celsius then []
  else
    let message := header in
    let command :=
      elems (final_command mode temp_celsius wind_speed up_down_mode
               left_right_mode sleep_mode is_on is_display_on is_buzzer_on
               is_eco is_8_deg_heater is_health_on) in
    let message := message ++ command in
    message ++ [calc_xor_checksum message].

(** The indices at which the same call accessed [command] outside its
    bounds. *)
Definition generate_message_stray (mode : Mode.t) (temp_celsius : Q)
    (wind_speed : WindSpeed.t) (up_down_mode : FanUpDown.t)
    (left_right_mode : FanLeftRight.t) (sleep_mode : SleepMode.t)
    (is_on is_display_on is_buzzer_on is_eco is_8_deg_heater is_health_on : bool)
  : list nat :=
  if out_of_range temp_celsius then []
  else
    stray (final_command mode temp_celsius wind_speed up_down_mode
             left_right_mode sleep_mode is_on is_display_on is_buzzer_on
             is_eco is_8_deg_heater is_health_on).

(** The call that passes the mode, the temperature and the fan speed and
    leaves the parameters after them at their defaults. *)
Definition generate_message_default (mode : Mode.t) (temp_celsius : Q)
    (wind_speed : WindSpeed.t) : list Z :=
  generate_message mode temp_celsius wind_speed FanUpDown.AUTO
    FanLeftRight.AUTO SleepMode.OFF true true true false false false.

(** The encoder with the mode written before the fan speed: steps 5 and 6
    of the protocol description exchanged, everything else as in
    [final_command]. *)
Definition final_command_swapped (mode : Mode.t) (temp_celsius : Q)
    (wind_speed : WindSpeed.t) (up_down_mode : FanUpDown.t)
    (left_right_mode : FanLeftRight.t) (sleep_mode : SleepMode.t)
    (is_on is_display_on is_buzzer_on is_eco is_8_deg_heater is_health_on : bool)
  : vec_state :=
  let s := VecState command_template [] in
  let s := set_flags sleep_mode is_on is_display_on is_buzzer_on is_eco
             is_8_deg_heater is_health_on s in
  let s := set_mode mode s in
  let s := set_wind_speed wind_speed s in
  set_temp_and_swing temp_celsius up_down_mode left_right_mode s.

Definition generate_message_swapped (mode : Mode.t) (temp_celsius : Q)
    (wind_speed : WindSpeed.t) (up_down_mode : FanUpDown.t)
    (left_right_mode : FanLeftRight.t) (sleep_mode : SleepMode.t)
    (is_on is_display_on is_buzzer_on is_eco is_8_deg_heater is_health_on : bool)
  : list Z :=
  if out_of_range temp_celsius then []
  else
    let message := header in
    let command :=
      elems (final_command_swapped mode temp_celsius wind_speed up_down_mode
               left_right_mode sleep_mode is_on is_display_on is_buzzer_on
               is_eco is_8_deg_heater is_health_on) in
    let message := message ++ command in
    message ++ [calc_xor_checksum message].

(** ** Notions used to state the properties *)

(** Flipping bit [j] of a byte. *)
Definition flip_bit (j : Z) (x : Z) : Z := Z.lxor x (Z.shiftl 1 j).

(** A temperature with a whole number of quarter degrees. *)
Definition is_quarter_degree (t : Q) : Prop := exists k : Z, t == k # 4.

(** Decoding the bytes [tempToPioneerHex] produced. *)
Definition decode_encoded (t : Q) : Q :=
  fromPioneerHex (tempToPioneerHex t !!! 0%nat) (tempToPioneerHex t !!! 1%nat).

(** The frame invariant in the words of the protocol description: the
    final byte is the XOR fold of the bytes before it, the fourth byte
    [len] is the length of the body (the bytes between the 4-byte header
    and the final byte) plus 1, and the frame has [4 + len] bytes. *)
Definition described_frame_invariant (frame : list Z) : Prop :=
  last frame = Some (calc_xor_checksum (removelast frame))
  /\ exists len : Z,
       frame !! 3%nat = Some len
       /\ len = Z.of_nat (length frame - 4 - 1) + 1
       /\ Z.of_nat (length frame) = 4 + len.

(** [l[i] |= x] on a plain list. *)
Definition or_byte (i : nat) (x : Z) (l : list Z) : list Z :=
  alter (fun b => Z.lor b x) i l.

(** The frame of the determinism property in the words of the protocol
    description: only the power bit, the code of Heat and the two
    temperature bytes of 20 are OR-ed into [template], and the checksum is
    appended. *)
Definition described_heat20_frame (template : list Z) : list Z :=
  let body := or_byte 3 0x04 template in
  let body := or_byte 4 0x1 body in
  let body := or_byte 9 0x0b body in
  let body := or_byte 11 0x0 body in
  (header ++ body) ++ [calc_xor_checksum (header ++ body)].

(** The bits of a frame the fan-speed step may write, by frame offset:
    bits 0xc0 of body byte 4 and the code bits 0x07 of body byte 6. *)
Definition fan_speed_bits (offset : nat) : Z :=
  match offset with
  | 8%nat => 0xc0
  | 10%nat => 0x07
  | _ => 0
  end.

(** The final byte of a 29-byte frame. *)
Definition checksum_bits (offset : nat) : Z :=
  match offset with
  | 28%nat => 0xff
  | _ => 0
  end.

(** Two frames of one length that agree on every bit outside [bits]. *)
Definition differ_at_most_in (bits : nat -> Z) (f f' : list Z) : Prop :=
  length f = length f'
  /\ forall i : nat,
       Z.land (f !!! i) (Z.lnot (bits i)) = Z.land (f' !!! i) (Z.lnot (bits i)).

(** Body byte 3 as a function of the power, display, buzzer and eco
    flags. *)
Definition flags_byte (is_on is_display_on is_buzzer_on is_eco : bool) : Z :=
  (if is_on then 0x04 else 0) + (if is_display_on then 0x40 else 0)
  + (if is_buzzer_on then 0x20 else 0) + (if is_eco then 0x80 else 0).

(** Body byte 4 as a function of the fan speed and the mode. *)
Definition mode_byte (wind_speed : WindSpeed.t) (mode : Mode.t) : Z :=
  Z.lor (match wind_speed with
         | WindSpeed.AUTO | WindSpeed.SIX => 0x5c
         | WindSpeed.MUTE => 0xdc
         | _ => 0x1c
         end)
        (Mode.code mode).

(** Body byte 6 as a function of the heater flag, the fan speed and the
    vertical swing. *)
Definition fan_byte (is_8_deg_heater : bool) (wind_speed : WindSpeed.t)
    (up_down_mode : FanUpDown.t) : Z :=
  Z.lor (Z.lor (if is_8_deg_heater then 0x84 else 0x04)
               (match wind_speed with
                | WindSpeed.AUTO => 0x0
                | WindSpeed.MUTE => 0x02
                | WindSpeed.SIX => 0x05
                | _ => at_int_key 0 speeds (WindSpeed.code wind_speed)
                end))
        (if FanUpDown.is_flow up_down_mode then 0x38 else 0x0).

(** Body byte 7 as a function of the horizontal swing. *)
Definition swing_byte (left_right_mode : FanLeftRight.t) : Z :=
  if FanLeftRight.is_flow left_right_mode then 0x88 else 0x80.

(** The 24 bytes of the body written out. *)
Definition body_bytes (mode : Mode.t) (temp_celsius : Q)
    (wind_speed : WindSpeed.t) (up_down_mode : FanUpDown.t)
    (left_right_mode : FanLeftRight.t) (sleep_mode : SleepMode.t)
    (is_on is_display_on is_buzzer_on is_eco is_8_deg_heater : bool)
  : list Z :=
  [0x00; 0x00; 0x00;
   flags_byte is_on is_display_on is_buzzer_on is_eco;
   mode_byte wind_speed mode;
   0x00;
   fan_byte is_8_deg_heater wind_speed up_down_mode;
   swing_byte left_right_mode;
   0x00;
   tempToPioneerHex temp_celsius !!! 0%nat;
   0x00;
   tempToPioneerHex temp_celsius !!! 1%nat;
   0x00; 0x00; 0x00;
   SleepMode.code sleep_mode;
   0x00; 0x00; 0x00; 0x00; 0x00; 0x00; 0x80; 0x99].

(** The stores of [generate_message] between the initialisation of
    [command] and the copying loop, on a given state. *)
Definition encode_steps (mode : Mode.t) (temp_celsius : Q)
    (wind_speed : WindSpeed.t) (up_down_mode : FanUpDown.t)
    (left_right_mode : FanLeftRight.t) (sleep_mode : SleepMode.t)
    (is_on is_display_on is_buzzer_on is_eco is_8_deg_heater is_health_on : bool)
    (s : vec_state) : vec_state :=
  let s := set_flags sleep_mode is_on is_display_on is_buzzer_on is_eco
             is_8_deg_heater is_health_on s in
  let s := set_wind_speed wind_speed s in
  let s := set_mode mode s in
  set_temp_and_swing temp_celsius up_down_mode left_right_mode s.

(** The same stores seen in memory: the 24 bytes of the buffer of
    [command] followed by the bytes [after] that lie behind it.  An index
    from 24 on addresses those bytes, which is where the unchecked
    [operator[]] reads and writes when the index is past the end of the
    vector.  The result is this memory when the copying loop is reached. *)
Definition memory_after_stores (mode : Mode.t) (temp_celsius : Q)
    (wind_speed : WindSpeed.t) (up_down_mode : FanUpDown.t)
    (left_right_mode : FanLeftRight.t) (sleep_mode : SleepMode.t)
    (is_on is_display_on is_buzzer_on is_eco is_8_deg_heater is_health_on : bool)
    (after : list Z) : list Z :=
  elems (encode_steps mode temp_celsius wind_speed up_down_mode
           left_right_mode sleep_mode is_on is_display_on is_buzzer_on
           is_eco is_8_deg_heater is_health_on
           (VecState (command_template ++ after) [])).

(** The doubles [num] for which [num * 4] is finite: up to 2^1021 in
    absolute value.  On them the operations of [toNearestQuarter] are
    exact. *)
Definition times_4_finite (num : Q) : Prop :=
  (- inject_Z (2 ^ 1021) <= num)%Q /\ (num <= inject_Z (2 ^ 1021))%Q.



(** A state [m] holds the vector of [s] followed by the bytes [a]. *)
Definition extends (s m : vec_state) (a : list Z) : Prop :=
  elems m = elems s ++ a.

(** * Properties *)

(** ** Bytes and bit operations *)

Lemma to_uchar_land (z : Z) : to_uchar z = Z.land z 255.
Proof.
  unfold to_uchar. change 256 with (2 ^ 8).
  rewrite <- Z.land_ones by lia. reflexivity.
Qed.

Lemma to_uchar_is_byte (z : Z) : is_byte (to_uchar z).
Proof. unfold is_byte, to_uchar. apply Z.mod_pos_bound. lia. Qed.

(** Equalities between combinations of [&], [|], [^] and the conversion
    to [unsigned char], decided bit by bit. *)
Ltac bitwise n Hn :=
  rewrite ?to_uchar_land; apply Z.bits_inj'; intros n Hn;
  repeat rewrite ?Z.land_spec, ?Z.lor_spec, ?Z.lxor_spec.

Lemma lor_uchar_swap (b x y : Z) :
  to_uchar (Z.lor (to_uchar (Z.lor b x)) y)
  = to_uchar (Z.lor (to_uchar (Z.lor b y)) x).
Proof.
  bitwise n Hn.
  destruct (Z.testbit b n), (Z.testbit x n), (Z.testbit y n),
    (Z.testbit 255 n); reflexivity.
Qed.

(** Clearing with a mask [c] and setting bits [m] that the mask keeps can
    be done in either order. *)
Lemma land_lor_uchar_swap (b m c : Z) :
  Z.land m c = m ->
  to_uchar (Z.lor (to_uchar (Z.land b c)) m)
  = to_uchar (Z.land (to_uchar (Z.lor b m)) c).
Proof.
  intros Hm. bitwise n Hn.
  assert (Hbit : Z.testbit m n = Z.testbit m n && Z.testbit c n).
  { rewrite <- Z.land_spec, Hm. reflexivity. }
  destruct (Z.testbit b n), (Z.testbit m n), (Z.testbit c n),
    (Z.testbit 255 n); simpl in *; congruence.
Qed.

(** ** The XOR fold *)

Lemma xor_fold_from (l : list Z) (a : Z) :
  fold_left (fun result byte => Z.lxor result byte) l a
  = Z.lxor a (calc_xor_checksum l).
Proof.
  unfold calc_xor_checksum. revert a.
  induction l as [|x l IH]; intros a; simpl.
  - now rewrite Z.lxor_0_r.
  - rewrite ?Z.lxor_0_l, (IH (Z.lxor a x)), (IH x), Z.lxor_assoc.
    reflexivity.
Qed.

Lemma calc_xor_checksum_cons (x : Z) (l : list Z) :
  calc_xor_checksum (x :: l) = Z.lxor x (calc_xor_checksum l).
Proof. unfold calc_xor_checksum at 1. simpl. apply xor_fold_from. Qed.

Lemma calc_xor_checksum_app (l1 l2 : list Z) :
  calc_xor_checksum (l1 ++ l2)
  = Z.lxor (calc_xor_checksum l1) (calc_xor_checksum l2).
Proof.
  unfold calc_xor_checksum at 1 2. rewrite fold_left_app.
  apply xor_fold_from.
Qed.

Lemma calc_xor_checksum_is_byte (l : list Z) :
  Forall is_byte l -> is_byte (calc_xor_checksum l).
Proof.
  induction 1 as [|x l Hx _ IH].
  - unfold is_byte, calc_xor_checksum; simpl; lia.
  - rewrite calc_xor_checksum_cons. unfold is_byte in *.
    split.
    + apply Z.lxor_nonneg. lia.
    + change 256 with (2 ^ 8).
      destruct (Z.eq_dec (Z.lxor x (calc_xor_checksum l)) 0) as [->|Hne];
        [lia|].
      apply Z.log2_lt_pow2; [pose proof (Z.lxor_nonneg x (calc_xor_checksum l)); lia|].
      eapply Z.le_lt_trans; [apply Z.log2_lxor; lia|].
      apply Z.max_lub_lt.
      * destruct (Z.eq_dec x 0) as [->|]; [simpl; lia|].
        apply Z.log2_lt_pow2; lia.
      * destruct (Z.eq_dec (calc_xor_checksum l) 0) as [->|]; [simpl; lia|].
        apply Z.log2_lt_pow2; lia.
Qed.

(** What [check_xor_checksum] computes on a vector with a last element. *)
Lemma check_xor_checksum_snoc (l : list Z) (c : Z) :
  check_xor_checksum (l ++ [c]) = Some (calc_xor_checksum l =? c).
Proof.
  unfold check_xor_checksum. rewrite last_snoc, removelast_last.
  reflexivity.
Qed.

(** Replacing one element changes the fold by the XOR of the old and the
    new value. *)
Lemma calc_xor_checksum_insert (l : list Z) (i : nat) (x y : Z) :
  l !! i = Some x ->
  calc_xor_checksum (<[i := y]> l)
  = Z.lxor (calc_xor_checksum l) (Z.lxor x y).
Proof.
  revert i. induction l as [|z l IH]; intros [|i] Hi; simpl in *;
    try discriminate.
  - injection Hi as ->. rewrite !calc_xor_checksum_cons.
    rewrite (Z.lxor_comm x (calc_xor_checksum l)), Z.lxor_assoc.
    rewrite <- (Z.lxor_assoc x x y), Z.lxor_nilpotent, Z.lxor_0_l.
    apply Z.lxor_comm.
  - rewrite !calc_xor_checksum_cons, (IH i Hi), Z.lxor_assoc. reflexivity.
Qed.

Lemma lxor_fixed_point (c p : Z) : Z.lxor c p = c -> p = 0.
Proof.
  intros H.
  assert (E : Z.lxor c (Z.lxor c p) = Z.lxor c c) by (rewrite H; reflexivity).
  rewrite <- Z.lxor_assoc, Z.lxor_nilpotent, Z.lxor_0_l in E. exact E.
Qed.

(** C3. For a non-empty byte sequence [b], the sequence followed by its
    own checksum passes [check_xor_checksum]; and when one bit of one byte
    of [b] is flipped while the appended checksum stays the original one,
    [check_xor_checksum] answers false. *)
Theorem check_xor_checksum_sound_and_detects_flip (b : list Z) :
  b <> [] ->
  check_xor_checksum (b ++ [calc_xor_checksum b]) = Some true
  /\ (forall (i : nat) (x j : Z),
        b !! i = Some x -> 0 <= j < 8 ->
        check_xor_checksum (<[i := flip_bit j x]> b ++ [calc_xor_checksum b])
        = Some false).
Proof.
  intros _. split.
  - rewrite check_xor_checksum_snoc, Z.eqb_refl. reflexivity.
  - intros i x j Hi Hj.
    rewrite check_xor_checksum_snoc, (calc_xor_checksum_insert b i x _ Hi).
    f_equal. apply Z.eqb_neq. intros Heq.
    apply lxor_fixed_point in Heq. unfold flip_bit in Heq.
    rewrite <- Z.lxor_assoc, Z.lxor_nilpotent, Z.lxor_0_l in Heq.
    rewrite Z.shiftl_1_l in Heq.
    pose proof (Z.pow_pos_nonneg 2 j). lia.
Qed.

Lemma check_xor_checksum_sound_and_detects_flip_witness :
  check_xor_checksum ([0xbb; 0x00; 0x01] ++ [calc_xor_checksum [0xbb; 0x00; 0x01]])
  = Some true
  /\ check_xor_checksum
       (<[0%nat := flip_bit 3 0xbb]> [0xbb; 0x00; 0x01]
          ++ [calc_xor_checksum [0xbb; 0x00; 0x01]])
     = Some false.
Proof.
  destruct (check_xor_checksum_sound_and_detects_flip [0xbb; 0x00; 0x01])
    as [Hok Hflip].
  - discriminate.
  - split; [exact Hok|]. apply Hflip; [reflexivity | lia].
Defined.

(** ** The fixed informational frames *)

(** C10. Each of the four frames [get_unknown_message] returns for [num]
    from 1 to 4 passes [check_xor_checksum], and the table access is
    inside the table exactly for those four values of [num]. *)
Theorem get_unknown_message_checksum_valid (num : Z) :
  (1 <= num <= 4 ->
   exists m, get_unknown_message num = Some m
             /\ check_xor_checksum m = Some true)
  /\ (is_Some (get_unknown_message num) <-> 1 <= num <= 4).
Proof.
  split.
  - intros Hnum.
    assert (Hcases : num = 1 \/ num = 2 \/ num = 3 \/ num = 4) by lia.
    destruct Hcases as [-> | [-> | [-> | ->]]];
      eexists; (split; [reflexivity | vm_compute; reflexivity]).
  - unfold get_unknown_message.
    destruct (Z.ltb_spec (num - 1) 0) as [Hneg | Hpos].
    + split; [intros [m Hm]; discriminate | lia].
    + rewrite lookup_lt_is_Some. change (length messages) with 4%nat. lia.
Qed.

Lemma get_unknown_message_checksum_valid_witness :
  (exists m, get_unknown_message 2 = Some m
             /\ check_xor_checksum m = Some true)
  /\ is_Some (get_unknown_message 2).
Proof.
  destruct (get_unknown_message_checksum_valid 2) as [Hvalid Hbound].
  split; [apply Hvalid; lia | apply Hbound; lia].
Defined.

(** ** Temperature codec *)

Lemma toNearestQuarter_comp (t t' : Q) :
  t == t' -> toNearestQuarter t = toNearestQuarter t'.
Proof.
  intros Heq. unfold toNearestQuarter, floorQ.
  assert (Hfl : Qfloor (t * 4) = Qfloor (t' * 4)).
  { apply Qfloor_comp. rewrite Heq. reflexivity. }
  rewrite Hfl. reflexivity.
Qed.

Lemma tempToPioneerHex_comp (t t' : Q) :
  t == t' -> tempToPioneerHex t = tempToPioneerHex t'.
Proof.
  intros Heq. unfold tempToPioneerHex.
  rewrite (toNearestQuarter_comp t t' Heq). reflexivity.
Qed.

(** The 61 quarter-degree values from 16 to 31, checked one by one. *)
Lemma roundtrip_table :
  forallb (fun n => Qeq_bool (decode_encoded ((64 + Z.of_nat n) # 4))
                             ((64 + Z.of_nat n) # 4))
          (seq 0 61) = true.
Proof. vm_compute. reflexivity. Qed.

(** C2. For every quarter-degree temperature [t] from 16 to 31,
    [fromPioneerHex] applied to the two bytes of [tempToPioneerHex t]
    gives [t] back. *)
Theorem temperature_roundtrip (t : Q) :
  (16 <= t)%Q -> (t <= 31)%Q -> is_quarter_degree t ->
  decode_encoded t == t.
Proof.
  intros Hlo Hhi [k Hk].
  rewrite Hk in Hlo, Hhi.
  unfold Qle in Hlo, Hhi; simpl in Hlo, Hhi.
  unfold decode_encoded.
  rewrite (tempToPioneerHex_comp t (k # 4) Hk), Hk.
  pose proof roundtrip_table as Htab.
  rewrite forallb_forall in Htab.
  specialize (Htab (Z.to_nat (k - 64))).
  replace (64 + Z.of_nat (Z.to_nat (k - 64))) with k in Htab by lia.
  apply Qeq_bool_iff, Htab, in_seq. lia.
Qed.

Lemma temperature_roundtrip_witness : decode_encoded (81 # 4) == 81 # 4.
Proof.
  apply temperature_roundtrip.
  - unfold Qle; simpl; lia.
  - unfold Qle; simpl; lia.
  - exists 81. reflexivity.
Defined.

(** C9 as stated fails: on the last nibble 0x1, which is none of the four
    recognised codes, [fromPioneerHex] signals nothing and returns the
    temperature 20. *)
Lemma unknown_nibble_decodes_to_number :
  fromPioneerHex 0x0b 0x1 == 20.
Proof. reflexivity. Qed.

(** C9, amended. For a last nibble that is none of 0x0, 0x4, 0x8, 0xc,
    [fromPioneerHex] returns [31 - first_nibble]: the fractional part
    contributed is 0, the result is the one for last nibble 0x0, and no
    error is signalled. *)
Theorem fromPioneerHex_unknown_nibble (first_nibble last_nibble : Z) :
  last_nibble <> 0x0 -> last_nibble <> 0x4 ->
  last_nibble <> 0x8 -> last_nibble <> 0xc ->
  fromPioneerHex first_nibble last_nibble == 31 - inject_Z first_nibble
  /\ fromPioneerHex first_nibble last_nibble = fromPioneerHex first_nibble 0x0.
Proof.
  intros H0 H4 H8 Hc. unfold fromPioneerHex, at_int_key.
  destruct (Z.eqb_spec 0 last_nibble) as [E|_]; [congruence|].
  destruct (Z.eqb_spec 4 last_nibble) as [E|_]; [congruence|].
  destruct (Z.eqb_spec 8 last_nibble) as [E|_]; [congruence|].
  destruct (Z.eqb_spec 12 last_nibble) as [E|_]; [congruence|].
  split; [apply Qplus_0_r | reflexivity].
Qed.

Lemma fromPioneerHex_unknown_nibble_witness :
  fromPioneerHex 0x0b 0x1 == 31 - inject_Z 0x0b
  /\ fromPioneerHex 0x0b 0x1 = fromPioneerHex 0x0b 0x0.
Proof. apply fromPioneerHex_unknown_nibble; discriminate. Defined.

(** ** Accesses to the command vector *)

Lemma vec_modify_length (i : nat) (f : Z -> Z) (s : vec_state) :
  length (elems (vec_modify i f s)) = length (elems s).
Proof.
  unfold vec_modify. destruct (elems s !! i); simpl; [apply length_insert | reflexivity].
Qed.

(** An access inside the vector leaves the log alone. *)
Lemma vec_modify_inside (i : nat) (f : Z -> Z) (s : vec_state) :
  (i < length (elems s))%nat ->
  exists x, elems s !! i = Some x
            /\ vec_modify i f s = VecState (<[i := f x]> (elems s)) (stray s).
Proof.
  intros Hi. apply lookup_lt_is_Some_2 in Hi as [x Hx].
  exists x. split; [exact Hx|]. unfold vec_modify. rewrite Hx. reflexivity.
Qed.

(** An access past the end changes no element and is logged. *)
Lemma vec_modify_outside (i : nat) (f : Z -> Z) (s : vec_state) :
  (length (elems s) <= i)%nat ->
  vec_modify i f s = VecState (elems s) (stray s ++ [i]).
Proof.
  intros Hi. unfold vec_modify. rewrite (lookup_ge_None_2 _ _ Hi). reflexivity.
Qed.

Lemma vec_modify_stray_inside (i : nat) (f : Z -> Z) (s : vec_state) :
  (i < length (elems s))%nat -> stray (vec_modify i f s) = stray s.
Proof.
  intros Hi. destruct (vec_modify_inside i f s Hi) as (x & _ & ->). reflexivity.
Qed.

Lemma vec_modify_ext (i : nat) (f g : Z -> Z) (s : vec_state) :
  (forall x, f x = g x) -> vec_modify i f s = vec_modify i g s.
Proof.
  intros Hfg. unfold vec_modify. destruct (elems s !! i); [|reflexivity].
  rewrite Hfg. reflexivity.
Qed.

(** Two successive read-modify-writes of one element. *)
Lemma vec_modify_twice (i : nat) (f g : Z -> Z) (s : vec_state) :
  (i < length (elems s))%nat ->
  vec_modify i f (vec_modify i g s) = vec_modify i (fun x => f (g x)) s.
Proof.
  intros Hi. destruct (vec_modify_inside i g s Hi) as (x & Hx & ->).
  unfold vec_modify; simpl.
  rewrite (list_lookup_insert_eq _ _ _ Hi), Hx, list_insert_insert_eq.
  reflexivity.
Qed.

(** Read-modify-writes of two different elements can be exchanged. *)
Lemma vec_modify_comm (i j : nat) (f g : Z -> Z) (s : vec_state) :
  i <> j -> (i < length (elems s))%nat -> (j < length (elems s))%nat ->
  vec_modify i f (vec_modify j g s) = vec_modify j g (vec_modify i f s).
Proof.
  intros Hij Hi Hj.
  destruct (vec_modify_inside i f s Hi) as (x & Hx & ->).
  destruct (vec_modify_inside j g s Hj) as (y & Hy & ->).
  unfold vec_modify; simpl.
  rewrite (list_lookup_insert_ne _ j i) by congruence.
  rewrite (list_lookup_insert_ne _ i j) by congruence.
  rewrite Hx, Hy, list_insert_insert_ne by congruence. reflexivity.
Qed.

Lemma when_length (c : bool) (body : vec_state -> vec_state) (s : vec_state) :
  length (elems (body s)) = length (elems s) ->
  length (elems (when c body s)) = length (elems s).
Proof. destruct c; simpl; auto. Qed.

Lemma or_at_length (i : nat) (x : Z) (s : vec_state) :
  length (elems (or_at i x s)) = length (elems s).
Proof. apply vec_modify_length. Qed.

Lemma and_at_length (i : nat) (x : Z) (s : vec_state) :
  length (elems (and_at i x s)) = length (elems s).
Proof. apply vec_modify_length. Qed.

Lemma when_or_at_length (c : bool) (i : nat) (x : Z) (s : vec_state) :
  length (elems (when c (or_at i x) s)) = length (elems s).
Proof. apply when_length, or_at_length. Qed.

Create Rewrite HintDb vec_len.
#[local] Hint Rewrite or_at_length and_at_length when_or_at_length : vec_len.

Lemma set_flags_length sm b1 b2 b3 b4 b5 b6 (s : vec_state) :
  length (elems (set_flags sm b1 b2 b3 b4 b5 b6 s)) = length (elems s).
Proof. unfold set_flags. autorewrite with vec_len. reflexivity. Qed.

Lemma set_wind_speed_length (w : WindSpeed.t) (s : vec_state) :
  length (elems (set_wind_speed w s)) = length (elems s).
Proof. destruct w; simpl; autorewrite with vec_len; reflexivity. Qed.

Lemma set_mode_length (m : Mode.t) (s : vec_state) :
  length (elems (set_mode m s)) = length (elems s).
Proof. apply or_at_length. Qed.

Lemma set_temp_and_swing_length t ud lr (s : vec_state) :
  length (elems (set_temp_and_swing t ud lr s)) = length (elems s).
Proof. unfold set_temp_and_swing. autorewrite with vec_len. reflexivity. Qed.

#[local] Hint Rewrite set_flags_length set_wind_speed_length set_mode_length
  set_temp_and_swing_length : vec_len.

(** The vector copied into the frame always has the 24 elements of the
    template. *)
Lemma final_command_length mode t w ud lr sm b1 b2 b3 b4 b5 b6 :
  length (elems (final_command mode t w ud lr sm b1 b2 b3 b4 b5 b6)) = 24%nat.
Proof. unfold final_command. autorewrite with vec_len. reflexivity. Qed.

(** ** The temperature guard *)

Lemma out_of_range_false (t : Q) :
  out_of_range t = false <-> (16 <= t /\ t <= 31)%Q.
Proof.
  unfold out_of_range, Qltb.
  rewrite orb_false_iff, !negb_false_iff, !Qle_bool_iff. tauto.
Qed.

Lemma out_of_range_true (t : Q) :
  out_of_range t = true <-> (t < 16 \/ 31 < t)%Q.
Proof.
  unfold out_of_range, Qltb.
  rewrite orb_true_iff, !negb_true_iff, <- !not_true_iff_false, !Qle_bool_iff.
  split.
  - intros [H | H]; [right | left]; apply Qnot_le_lt; exact H.
  - intros [H | H]; [right | left]; apply Qlt_not_le; exact H.
Qed.

(** ** Order of the fan-speed and mode steps *)

(** Every mode code lies outside the two bits the fan-speed step clears. *)
Lemma mode_code_kept (m : Mode.t) :
  Z.land (Mode.code m) (Z.lnot 0xc0) = Mode.code m.
Proof. destruct m; reflexivity. Qed.

(** On a vector holding elements 4 and 6, writing the mode before or after
    the fan speed gives the same vector and the same log. *)
Lemma set_mode_set_wind_speed_swap (m : Mode.t) (w : WindSpeed.t)
    (s : vec_state) :
  (6 < length (elems s))%nat ->
  set_wind_speed w (set_mode m s) = set_mode m (set_wind_speed w s).
Proof.
  intros Hlen.
  assert (H4 : (4 < length (elems s))%nat) by lia.
  unfold set_mode, or_at, and_at.
  destruct w; unfold set_wind_speed, or_at, and_at;
    try reflexivity;
    rewrite (vec_modify_comm 4 6) by
      (rewrite ?vec_modify_length; (lia || congruence));
    f_equal;
    rewrite !vec_modify_twice by assumption;
    apply vec_modify_ext; intros x;
    first [ symmetry; apply land_lor_uchar_swap, mode_code_kept
          | apply lor_uchar_swap ].
Qed.

Lemma final_command_swapped_eq mode t w ud lr sm b1 b2 b3 b4 b5 b6 :
  final_command_swapped mode t w ud lr sm b1 b2 b3 b4 b5 b6
  = final_command mode t w ud lr sm b1 b2 b3 b4 b5 b6.
Proof.
  unfold final_command_swapped, final_command.
  rewrite set_mode_set_wind_speed_swap; [reflexivity|].
  rewrite set_flags_length. simpl. lia.
Qed.

Lemma generate_message_swapped_eq mode t w ud lr sm b1 b2 b3 b4 b5 b6 :
  generate_message_swapped mode t w ud lr sm b1 b2 b3 b4 b5 b6
  = generate_message mode t w ud lr sm b1 b2 b3 b4 b5 b6.
Proof.
  unfold generate_message_swapped, generate_message.
  rewrite final_command_swapped_eq. reflexivity.
Qed.

(** C8 as stated fails: there is no input with a fan speed other than
    Auto, Mute and Speed6 on which the encoder with the mode written before
    the fan speed returns a frame different from the implemented one. *)
Lemma no_input_separates_swapped_order :
  ~ exists mode t w ud lr sm b1 b2 b3 b4 b5 b6,
      w <> WindSpeed.AUTO /\ w <> WindSpeed.MUTE /\ w <> WindSpeed.SIX
      /\ generate_message_swapped mode t w ud lr sm b1 b2 b3 b4 b5 b6
         <> generate_message mode t w ud lr sm b1 b2 b3 b4 b5 b6.
Proof.
  intros (mode & t & w & ud & lr & sm & b1 & b2 & b3 & b4 & b5 & b6
          & _ & _ & _ & Hne).
  apply Hne, generate_message_swapped_eq.
Qed.

(** C8, amended. The order of the fan-speed step and the mode step does
    not matter: on every input the encoder that writes the mode first
    returns the same frame as the implemented encoder.  The fan-speed step
    clears only bits 0xc0 of body byte 4, and every mode code (0x1, 0x2,
    0x3, 0x7, 0x8) lies below them. *)
Theorem swapped_order_same_frame mode t w ud lr sm b1 b2 b3 b4 b5 b6 :
  generate_message_swapped mode t w ud lr sm b1 b2 b3 b4 b5 b6
  = generate_message mode t w ud lr sm b1 b2 b3 b4 b5 b6.
Proof. apply generate_message_swapped_eq. Qed.

(** ** Shape of the frame *)

Lemma generate_message_accepted mode t w ud lr sm b1 b2 b3 b4 b5 b6 :
  (16 <= t)%Q -> (t <= 31)%Q ->
  let body := elems (final_command mode t w ud lr sm b1 b2 b3 b4 b5 b6) in
  length body = 24%nat
  /\ generate_message mode t w ud lr sm b1 b2 b3 b4 b5 b6
     = (header ++ body) ++ [calc_xor_checksum (header ++ body)].
Proof.
  intros Hlo Hhi body. split; [apply final_command_length|].
  unfold generate_message.
  rewrite (proj2 (out_of_range_false t) (conj Hlo Hhi)). reflexivity.
Qed.

Lemma generate_message_refused mode t w ud lr sm b1 b2 b3 b4 b5 b6 :
  (t < 16 \/ 31 < t)%Q ->
  generate_message mode t w ud lr sm b1 b2 b3 b4 b5 b6 = [].
Proof.
  intros Ht. unfold generate_message.
  rewrite (proj2 (out_of_range_true t) Ht). reflexivity.
Qed.

(** X23. Whatever the other arguments, a temperature strictly below 16
    or strictly above 31 makes [generate_message] return the empty vector
    before [command] exists; and with both swing settings Auto a
    temperature from 16 to 31 inclusive makes it return a frame of 29
    bytes. *)
Theorem generate_message_guard mode t w ud lr sm b1 b2 b3 b4 b5 b6 :
  ((t < 16 \/ 31 < t)%Q ->
   generate_message mode t w ud lr sm b1 b2 b3 b4 b5 b6 = []
   /\ generate_message_stray mode t w ud lr sm b1 b2 b3 b4 b5 b6 = [])
  /\ ((16 <= t)%Q -> (t <= 31)%Q ->
      length (generate_message mode t w FanUpDown.AUTO FanLeftRight.AUTO sm
                b1 b2 b3 b4 b5 b6) = 29%nat).
Proof.
  split.
  - intros Ht. split; [apply generate_message_refused, Ht|].
    unfold generate_message_stray.
    rewrite (proj2 (out_of_range_true t) Ht). reflexivity.
  - intros Hlo Hhi.
    destruct (generate_message_accepted mode t w FanUpDown.AUTO
                FanLeftRight.AUTO sm b1 b2 b3 b4 b5 b6 Hlo Hhi) as [Hlen ->].
    rewrite !length_app, Hlen. reflexivity.
Qed.

Lemma generate_message_guard_witness :
  generate_message Mode.HEAT (31 # 2) WindSpeed.AUTO FanUpDown.UP_FLOW
    FanLeftRight.AUTO SleepMode.OFF true true true false false false = []
  /\ generate_message Mode.HEAT (63 # 2) WindSpeed.AUTO FanUpDown.AUTO
       FanLeftRight.AUTO SleepMode.OFF true true true false false false = []
  /\ length (generate_message Mode.HEAT 20 WindSpeed.AUTO FanUpDown.AUTO
               FanLeftRight.AUTO SleepMode.OFF true true true false false false)
     = 29%nat.
Proof.
  split; [|split].
  - apply (generate_message_guard Mode.HEAT (31 # 2) WindSpeed.AUTO
             FanUpDown.UP_FLOW FanLeftRight.AUTO SleepMode.OFF
             true true true false false false).
    left. reflexivity.
  - apply (generate_message_guard Mode.HEAT (63 # 2) WindSpeed.AUTO
             FanUpDown.AUTO FanLeftRight.AUTO SleepMode.OFF
             true true true false false false).
    right. reflexivity.
  - apply (generate_message_guard Mode.HEAT 20 WindSpeed.AUTO FanUpDown.AUTO
             FanLeftRight.AUTO SleepMode.OFF true true true false false false);
      discriminate.
Defined.


(** C6, amended. For a temperature from 16 to 31 and both swing settings
    Auto, the frame [generate_message] returns is the header [bb 00 01 03],
    a body of 24 bytes and one final byte, 29 bytes in all; the final byte
    is the XOR fold of the 28 bytes before it, so the frame passes
    [check_xor_checksum]; and the fourth header byte is the constant 0x03
    whatever the body. *)
Theorem generate_message_frame_invariant mode t w sm b1 b2 b3 b4 b5 b6 :
  (16 <= t)%Q -> (t <= 31)%Q ->
  let frame := generate_message mode t w FanUpDown.AUTO FanLeftRight.AUTO sm
                 b1 b2 b3 b4 b5 b6 in
  (exists body,
      length body = 24%nat
      /\ frame = ([0xbb; 0x00; 0x01; 0x03] ++ body)
                 ++ [calc_xor_checksum ([0xbb; 0x00; 0x01; 0x03] ++ body)])
  /\ length frame = 29%nat
  /\ last frame = Some (calc_xor_checksum (removelast frame))
  /\ check_xor_checksum frame = Some true
  /\ frame !! 3%nat = Some 0x03.
Proof.
  intros Hlo Hhi frame.
  destruct (generate_message_accepted mode t w FanUpDown.AUTO
              FanLeftRight.AUTO sm b1 b2 b3 b4 b5 b6 Hlo Hhi)
    as [Hlen Hframe].
  subst frame. rewrite Hframe. clear Hframe.
  set (body := elems (final_command mode t w FanUpDown.AUTO FanLeftRight.AUTO
                        sm b1 b2 b3 b4 b5 b6)) in *.
  split; [|split; [|split; [|split]]].
  - exists body. split; [exact Hlen | reflexivity].
  - rewrite !length_app, Hlen. reflexivity.
  - rewrite last_snoc, removelast_last. reflexivity.
  - rewrite check_xor_checksum_snoc, Z.eqb_refl. reflexivity.
  - reflexivity.
Qed.

Lemma generate_message_frame_invariant_witness :
  let frame := generate_message Mode.COOL (89 # 4) WindSpeed.TWO
                 FanUpDown.AUTO FanLeftRight.AUTO SleepMode.CHILD
                 true false true true false true in
  length frame = 29%nat /\ check_xor_checksum frame = Some true
  /\ frame !! 3%nat = Some 0x03.
Proof.
  intros frame.
  destruct (generate_message_frame_invariant Mode.COOL (89 # 4) WindSpeed.TWO
              SleepMode.CHILD true false true true false true)
    as (_ & Hlen & _ & Hcheck & Hfourth).
  - unfold Qle; simpl; lia.
  - unfold Qle; simpl; lia.
  - exact (conj Hlen (conj Hcheck Hfourth)).
Defined.

(** C6 as stated fails: the frame for (Heat, 20) with the defaults has a
    body of 24 bytes and 29 bytes in all, and its fourth byte is 3, neither
    24 + 1 nor 29 - 4. *)
Lemma length_byte_is_not_body_length :
  ~ described_frame_invariant
      (generate_message Mode.HEAT 20 WindSpeed.AUTO FanUpDown.AUTO
         FanLeftRight.AUTO SleepMode.OFF true true true false false false).
Proof.
  intros (_ & len & Hfourth & Hlen & _).
  vm_compute in Hfourth. injection Hfourth as <-.
  vm_compute in Hlen. discriminate.
Qed.

(** ** Accesses outside the command vector *)

Lemma or_at_stray (i : nat) (x : Z) (s : vec_state) :
  (i < length (elems s))%nat -> stray (or_at i x s) = stray s.
Proof. apply vec_modify_stray_inside. Qed.

Lemma and_at_stray (i : nat) (x : Z) (s : vec_state) :
  (i < length (elems s))%nat -> stray (and_at i x s) = stray s.
Proof. apply vec_modify_stray_inside. Qed.

Lemma when_or_at_stray (c : bool) (i : nat) (x : Z) (s : vec_state) :
  (i < length (elems s))%nat -> stray (when c (or_at i x) s) = stray s.
Proof. destruct c; [apply or_at_stray | reflexivity]. Qed.

Ltac inside_24 := autorewrite with vec_len; lia.

Lemma set_flags_stray sm b1 b2 b3 b4 b5 b6 (s : vec_state) :
  length (elems s) = 24%nat ->
  stray (set_flags sm b1 b2 b3 b4 b5 b6 s) = stray s.
Proof.
  intros Hlen. unfold set_flags.
  rewrite or_at_stray by inside_24.
  repeat rewrite when_or_at_stray by inside_24.
  reflexivity.
Qed.

Lemma set_wind_speed_stray (w : WindSpeed.t) (s : vec_state) :
  length (elems s) = 24%nat -> stray (set_wind_speed w s) = stray s.
Proof.
  intros Hlen.
  destruct w; simpl;
    repeat first [ rewrite or_at_stray by inside_24
                 | rewrite and_at_stray by inside_24 ];
    reflexivity.
Qed.

Lemma set_temp_and_swing_stray t ud lr (s : vec_state) :
  length (elems s) = 24%nat ->
  stray (set_temp_and_swing t ud lr s) = stray s ++ [28; 29]%nat.
Proof.
  intros Hlen. unfold set_temp_and_swing, or_at at 1.
  rewrite vec_modify_outside by inside_24. simpl.
  rewrite when_or_at_stray by inside_24.
  unfold or_at at 1.
  rewrite vec_modify_outside by inside_24. simpl.
  rewrite when_or_at_stray by inside_24.
  rewrite !or_at_stray by inside_24.
  rewrite <- app_assoc. reflexivity.
Qed.

(** Whatever the arguments, the two swing stores are the accesses that
    leave the 24-element vector, and the only ones. *)
Lemma final_command_stray mode t w ud lr sm b1 b2 b3 b4 b5 b6 :
  stray (final_command mode t w ud lr sm b1 b2 b3 b4 b5 b6) = [28; 29]%nat.
Proof.
  unfold final_command.
  rewrite set_temp_and_swing_stray by (autorewrite with vec_len; reflexivity).
  unfold set_mode.
  rewrite or_at_stray by (autorewrite with vec_len; simpl; lia).
  rewrite set_wind_speed_stray by (autorewrite with vec_len; reflexivity).
  rewrite set_flags_stray by reflexivity.
  reflexivity.
Qed.

(** C5 fails on the code. In the call [generate_message(Mode::HEAT, 20)]
    of [main], the vector [command] has 24 elements, indices 0 to 23, and
    the stores [command[28]] and [command[29]] fall outside it. *)
Theorem generate_message_indexes_past_the_body :
  length command_template = 24%nat
  /\ generate_message_stray Mode.HEAT 20 WindSpeed.AUTO FanUpDown.AUTO
       FanLeftRight.AUTO SleepMode.OFF true true true false false false
     = [28; 29]%nat.
Proof. split; vm_compute; reflexivity. Qed.

(** ** The frame for (Heat, 20) *)

(** C1 as stated fails: with the defaulted parameters left out, display and
    buzzer are on as well, and the template is not all zero.  The frame
    differs from the described one, whether that is built on 24 zero bytes
    or on the template of the code; body byte 3 is 0x64 and not 0x04, body
    byte 4 is 0x5d and not 0x01. *)
Lemma heat20_frame_is_not_the_described_one :
  let frame := generate_message_default Mode.HEAT 20 WindSpeed.AUTO in
  frame <> described_heat20_frame (replicate 24 0)
  /\ frame <> described_heat20_frame command_template
  /\ frame !! (4 + 3)%nat = Some 0x64
  /\ described_heat20_frame (replicate 24 0) !! (4 + 3)%nat = Some 0x04
  /\ frame !! (4 + 4)%nat = Some 0x5d
  /\ described_heat20_frame (replicate 24 0) !! (4 + 4)%nat = Some 0x01.
Proof. vm_compute. repeat split; discriminate. Qed.

(** C1, amended. [generate_message(Heat, 20.0)] with every defaulted
    parameter left out (fan speed Auto, both swings Auto, sleep Off, power,
    display and buzzer on, eco, heater and health off) returns the 29 bytes
    below: the header, the template of the code (non-zero at body bytes 4,
    6, 7, 22, 23) with 0x04, 0x40 and 0x20 OR-ed into body byte 3, 0x1 into
    body byte 4, 0x0b into body byte 9 and 0x0 into body byte 11, and the
    checksum 0x16.  Body bytes 3, 4, 9 and 11 are 0x64, 0x5d, 0x0b and 0x00. *)
Theorem generate_message_heat20 :
  let frame := generate_message_default Mode.HEAT 20 WindSpeed.AUTO in
  frame = [0xbb; 0x00; 0x01; 0x03;
           0x00; 0x00; 0x00; 0x64; 0x5d; 0x00; 0x04; 0x80;
           0x00; 0x0b; 0x00; 0x00; 0x00; 0x00; 0x00; 0x00;
           0x00; 0x00; 0x00; 0x00; 0x00; 0x00; 0x80; 0x99;
           0x16]
  /\ frame
     = (let body := or_byte 3 0x04 command_template in
        let body := or_byte 3 0x40 body in
        let body := or_byte 3 0x20 body in
        let body := or_byte 4 0x1 body in
        let body := or_byte 9 0x0b body in
        let body := or_byte 11 0x0 body in
        (header ++ body) ++ [calc_xor_checksum (header ++ body)])
  /\ frame !! (4 + 3)%nat = Some 0x64
  /\ frame !! (4 + 4)%nat = Some 0x5d
  /\ frame !! (4 + 9)%nat = Some 0x0b
  /\ frame !! (4 + 11)%nat = Some 0x00.
Proof. vm_compute. repeat split. Qed.

(** With display and buzzer switched off as well, the frame is the
    described one built on the template of the code. *)
Lemma heat20_display_and_buzzer_off :
  generate_message Mode.HEAT 20 WindSpeed.AUTO FanUpDown.AUTO
    FanLeftRight.AUTO SleepMode.OFF true false false false false false
  = described_heat20_frame command_template.
Proof. vm_compute. reflexivity. Qed.

(** ** Effect of the fan speed on the frame *)

(** C7 as stated fails: for (Heat, 20) the frame with fan speed Speed3 and
    the all-default frame differ outside the fan-speed bits, in the final
    checksum byte (0x55 against 0x16); and the byte that carries the mode,
    body byte 4, is not the same in both (0x1d against 0x5d). *)
Lemma speed3_changes_checksum_byte :
  let f3 := generate_message_default Mode.HEAT 20 WindSpeed.THREE in
  let f0 := generate_message_default Mode.HEAT 20 WindSpeed.AUTO in
  ~ differ_at_most_in fan_speed_bits f3 f0
  /\ f3 !! 28%nat = Some 0x55 /\ f0 !! 28%nat = Some 0x16
  /\ f3 !! (4 + 4)%nat = Some 0x1d /\ f0 !! (4 + 4)%nat = Some 0x5d.
Proof.
  split; [|vm_compute; repeat split].
  intros [_ Hbits]. specialize (Hbits 28%nat).
  vm_compute in Hbits. discriminate.
Qed.

Lemma land_lnot_255_byte (x : Z) : is_byte x -> Z.land x (Z.lnot 255) = 0.
Proof.
  intros [Hlo Hhi]. rewrite <- Z.ldiff_land. change 255 with (Z.ones 8).
  rewrite Z.ldiff_ones_r, Z.shiftr_div_pow2, Z.div_small by lia.
  apply Z.shiftl_0_l.
Qed.

Ltac byte_list :=
  repeat first [ apply Forall_nil_2
               | apply Forall_cons_2; [first [ apply to_uchar_is_byte
                                           | unfold is_byte; lia ]|] ].

(** C7, amended. For every mode and temperature, the frame encoded with
    fan speed Speed3 and the other parameters at their defaults differs
    from the all-default frame at most in the fan-speed bits (bits 0xc0 of
    body byte 4, bits 0x07 of body byte 6) and in the final checksum byte,
    which covers them.  The mode bits (low nibble of body byte 4), the
    temperature bytes (body bytes 9 and 11) and the swing bits inside the
    body (0x38 of body byte 6, body byte 7) are the same in both frames. *)
Theorem speed3_changes_fan_bits_and_checksum_only (mode : Mode.t) (t : Q) :
  let f3 := generate_message_default mode t WindSpeed.THREE in
  let f0 := generate_message_default mode t WindSpeed.AUTO in
  differ_at_most_in (fun i => Z.lor (fan_speed_bits i) (checksum_bits i)) f3 f0
  /\ Z.land (f3 !!! (4 + 4)%nat) 0x0f = Z.land (f0 !!! (4 + 4)%nat) 0x0f
  /\ f3 !! (4 + 9)%nat = f0 !! (4 + 9)%nat
  /\ f3 !! (4 + 11)%nat = f0 !! (4 + 11)%nat
  /\ Z.land (f3 !!! (4 + 6)%nat) 0x38 = Z.land (f0 !!! (4 + 6)%nat) 0x38
  /\ f3 !! (4 + 7)%nat = f0 !! (4 + 7)%nat.
Proof.
  intros f3 f0. subst f3 f0.
  unfold generate_message_default, generate_message.
  destruct (out_of_range t).
  - split; [split|]; [reflexivity | intros i; reflexivity | tauto].
  - unfold final_command, set_temp_and_swing.
    generalize (tempToPioneerHex t !!! 0%nat) (tempToPioneerHex t !!! 1%nat).
    intros a b.
    set (s3 := set_mode mode _). set (s0 := set_mode mode _).
    destruct mode; vm_compute in s3, s0; subst s3 s0;
      cbn -[to_uchar calc_xor_checksum Z.lor Z.land Z.lnot];
      (split; [split; [reflexivity|] | repeat split]);
      intros i;
      do 28 (destruct i as [|i]; [reflexivity|]);
      (destruct i as [|i]; [|reflexivity]);
      cbn -[to_uchar calc_xor_checksum Z.land Z.lnot];
      rewrite !land_lnot_255_byte; try reflexivity;
      apply calc_xor_checksum_is_byte; byte_list.
Qed.
(** ** More on the temperature codec *)

Lemma toNearestQuarter_eq (t : Q) :
  toNearestQuarter t == Qfloor (t * 4) # 4.
Proof.
  unfold toNearestQuarter, floorQ, Qeq. simpl. lia.
Qed.

Lemma at_double_key_comp (m : list (Q * Z)) (k1 k2 : Q) :
  k1 == k2 -> at_double_key m k1 = at_double_key m k2.
Proof.
  intros Hk. induction m as [|[k' v] m IH]; simpl; [reflexivity|].
  rewrite IH.
  assert (E : Qeq_bool k' k1 = Qeq_bool k' k2) by (rewrite Hk; reflexivity).
  rewrite E. reflexivity.
Qed.

Lemma castQ_int_comp (x y : Q) : x == y -> castQ_int x = castQ_int y.
Proof.
  intros H. unfold castQ_int.
  assert (E : Qle_bool 0 x = Qle_bool 0 y) by (rewrite H; reflexivity).
  rewrite E, (Qfloor_comp x y H), (Qceiling_comp x y H). reflexivity.
Qed.

Lemma quarter_fraction (k : Z) :
  ((k # 4) - floorQ (k # 4) == (k mod 4) # 4)%Q.
Proof.
  unfold floorQ, Qfloor, Qeq. simpl.
  pose proof (Z.div_mod k 4). lia.
Qed.

Lemma Qfloor_times_4 (t : Q) : Qfloor (t * 4) / 4 = Qfloor t.
Proof.
  symmetry. apply Z.div_unique with (r := Qfloor (t * 4) - 4 * Qfloor t); [|lia].
  left.
  assert (Hlo : (inject_Z (4 * Qfloor t) <= t * 4)%Q).
  { rewrite inject_Z_mult, Qmult_comm.
    apply Qmult_le_compat_r; [apply Qfloor_le | discriminate]. }
  assert (Hhi : (t * 4 < inject_Z (4 * (Qfloor t + 1)))%Q).
  { rewrite inject_Z_mult, (Qmult_comm (inject_Z 4)).
    apply Qmult_lt_compat_r; [reflexivity | apply Qlt_floor]. }
  apply Qfloor_resp_le in Hlo. rewrite Qfloor_Z in Hlo.
  assert (Hk : (inject_Z (Qfloor (t * 4)) < inject_Z (4 * (Qfloor t + 1)))%Q).
  { eapply Qle_lt_trans; [apply Qfloor_le | exact Hhi]. }
  rewrite <- Zlt_Qlt in Hk. lia.
Qed.

Lemma tempToPioneerHex_bytes (t : Q) :
  tempToPioneerHex t
  = [to_uchar (31 - castQ_int (Qfloor (t * 4) # 4));
     4 * (Qfloor (t * 4) mod 4)].
Proof.
  unfold tempToPioneerHex.
  pose proof (toNearestQuarter_eq t) as Hq.
  set (c := toNearestQuarter t) in *. set (k := Qfloor (t * 4)) in *.
  f_equal; [rewrite (castQ_int_comp c (k # 4) Hq); reflexivity|].
  f_equal.
  assert (Hfrac : (c - floorQ c == (k mod 4) # 4)%Q).
  { rewrite <- quarter_fraction. unfold floorQ.
    rewrite (Qfloor_comp c (k # 4) Hq), Hq. reflexivity. }
  rewrite (at_double_key_comp _ _ _ Hfrac).
  pose proof (Z.mod_pos_bound k 4 ltac:(lia)) as Hr.
  assert (Hcases : k mod 4 = 0 \/ k mod 4 = 1 \/ k mod 4 = 2 \/ k mod 4 = 3)
    by lia.
  destruct Hcases as [-> | [-> | [-> | ->]]]; reflexivity.
Qed.

Lemma toNearestQuarter_fixes_quarters (k : Z) :
  toNearestQuarter (k # 4) == k # 4.
Proof.
  rewrite toNearestQuarter_eq.
  assert (E : Qfloor ((k # 4) * 4) = k).
  { rewrite <- (Qfloor_Z k) at 2. apply Qfloor_comp.
    unfold Qeq. simpl. lia. }
  rewrite E. reflexivity.
Qed.

(** X1. On the doubles whose product by 4 is finite, [toNearestQuarter]
    rounds down to a multiple of a quarter: the result is a whole number
    of quarters, it is not above the argument, and it is less than a
    quarter below it. *)
Theorem toNearestQuarter_rounds_down (t : Q) :
  times_4_finite t ->
  is_quarter_degree (toNearestQuarter t)
  /\ (toNearestQuarter t <= t)%Q
  /\ (t < toNearestQuarter t + (1 # 4))%Q.
Proof.
  intros _.
  pose proof (toNearestQuarter_eq t) as Hq.
  split; [exists (Qfloor (t * 4)); exact Hq|].
  rewrite Hq. clear Hq.
  pose proof (Qfloor_le (t * 4)) as Hlo.
  pose proof (Qlt_floor (t * 4)) as Hhi.
  set (k := Qfloor (t * 4)) in *. destruct t as [n d].
  unfold Qle, Qlt, Qplus, Qmult, inject_Z in *. simpl in *. split; lia.
Qed.

Lemma toNearestQuarter_rounds_down_witness :
  is_quarter_degree (toNearestQuarter (203 # 10))
  /\ (toNearestQuarter (203 # 10) <= 203 # 10)%Q
  /\ (203 # 10 < toNearestQuarter (203 # 10) + (1 # 4))%Q.
Proof.
  apply (toNearestQuarter_rounds_down (203 # 10)).
  split; vm_compute; discriminate.
Defined.

(** X2. On the doubles whose product by 4 is finite, the values
    [toNearestQuarter] leaves unchanged are exactly the whole numbers of
    quarters, and rounding a second time changes nothing. *)
Theorem toNearestQuarter_fixed_points (t : Q) :
  times_4_finite t ->
  (toNearestQuarter t == t <-> is_quarter_degree t)
  /\ toNearestQuarter (toNearestQuarter t) == toNearestQuarter t.
Proof.
  intros _. split.
  - split.
    + intros H. exists (Qfloor (t * 4)).
      rewrite <- H at 1. apply toNearestQuarter_eq.
    + intros [k Hk].
      rewrite (toNearestQuarter_comp t (k # 4) Hk), Hk.
      apply toNearestQuarter_fixes_quarters.
  - rewrite (toNearestQuarter_comp _ _ (toNearestQuarter_eq t)).
    rewrite toNearestQuarter_fixes_quarters. symmetry.
    apply toNearestQuarter_eq.
Qed.

Lemma toNearestQuarter_fixed_points_witness :
  (toNearestQuarter (81 # 4) == 81 # 4 <-> is_quarter_degree (81 # 4))
  /\ toNearestQuarter (toNearestQuarter (81 # 4)) == toNearestQuarter (81 # 4).
Proof.
  apply (toNearestQuarter_fixed_points (81 # 4)).
  split; vm_compute; discriminate.
Defined.

Lemma castQ_int_quarter_nonneg (t : Q) :
  (0 <= t)%Q -> castQ_int (Qfloor (t * 4) # 4) = Qfloor t.
Proof.
  intros Ht. unfold castQ_int.
  assert (Hk : 0 <= Qfloor (t * 4)).
  { rewrite <- (Qfloor_Z 0). apply Qfloor_resp_le.
    change (inject_Z 0) with (0 * 4)%Q.
    apply Qmult_le_compat_r; [exact Ht | discriminate]. }
  pose proof (Qfloor_times_4 t) as Hdiv.
  set (k := Qfloor (t * 4)) in *.
  assert (Hle : Qle_bool 0 (k # 4) = true).
  { apply Qle_bool_iff. unfold Qle. simpl. lia. }
  rewrite Hle. exact Hdiv.
Qed.

Lemma tempToPioneerHex_nonneg (t : Q) :
  (0 <= t)%Q ->
  tempToPioneerHex t
  = [to_uchar (31 - Qfloor t); 4 * (Qfloor (t * 4) mod 4)].
Proof.
  intros Ht.
  rewrite tempToPioneerHex_bytes, (castQ_int_quarter_nonneg t Ht).
  reflexivity.
Qed.

(** X3. For a temperature that is not negative and below 2^31, the two
    bytes of [tempToPioneerHex] are 31 minus the whole degrees, reduced to
    an [unsigned char], and four times the number of quarters above them. *)
Theorem tempToPioneerHex_closed_form (t : Q) :
  (0 <= t)%Q -> (t < inject_Z (2 ^ 31))%Q ->
  tempToPioneerHex t
  = [to_uchar (31 - Qfloor t); 4 * (Qfloor (t * 4) mod 4)].
Proof. intros Hlo _. apply tempToPioneerHex_nonneg, Hlo. Qed.

Lemma tempToPioneerHex_closed_form_witness :
  tempToPioneerHex (81 # 4) = [to_uchar (31 - 20); 4 * (81 mod 4)].
Proof.
  apply (tempToPioneerHex_closed_form (81 # 4)); [discriminate | reflexivity].
Defined.



Lemma Qfloor_bounds (t : Q) (lo hi : Z) :
  (inject_Z lo <= t)%Q -> (t < inject_Z hi)%Q -> lo <= Qfloor t < hi.
Proof.
  intros Hlo Hhi. split.
  - rewrite <- (Qfloor_Z lo). apply Qfloor_resp_le, Hlo.
  - rewrite Zlt_Qlt. eapply Qle_lt_trans; [apply Qfloor_le | exact Hhi].
Qed.

Lemma decode_encoded_quantized (t : Q) :
  (0 <= t)%Q -> (t < 32)%Q -> decode_encoded t == toNearestQuarter t.
Proof.
  intros Hlo Hhi. unfold decode_encoded.
  rewrite (tempToPioneerHex_nonneg t Hlo), toNearestQuarter_eq.
  cbn [lookup_total list_lookup_total].
  pose proof (Qfloor_bounds t 0 32 Hlo Hhi) as Hn.
  pose proof (Qfloor_times_4 t) as Hdiv.
  pose proof (Z.div_mod (Qfloor (t * 4)) 4 ltac:(lia)) as Hk.
  pose proof (Z.mod_pos_bound (Qfloor (t * 4)) 4 ltac:(lia)) as Hr.
  rewrite Hdiv in Hk.
  set (k := Qfloor (t * 4)) in *. set (n := Qfloor t) in *.
  unfold to_uchar. rewrite Z.mod_small by lia.
  assert (Hcases : k mod 4 = 0 \/ k mod 4 = 1 \/ k mod 4 = 2 \/ k mod 4 = 3)
    by lia.
  unfold fromPioneerHex.
  destruct Hcases as [E | [E | [E | E]]]; rewrite E in *;
    cbn [at_int_key Z.mul Z.eqb Pos.mul Pos.eqb];
    unfold Qeq, Qplus, Qminus, Qopp, inject_Z; simpl; lia.
Qed.

(** X22. For a temperature the encoder accepts, from 16 to 31, both
    bytes of [tempToPioneerHex] are nibbles: the first is 31 minus the
    whole degrees and lies between 0 and 15, the second is at most 12. *)
Theorem tempToPioneerHex_nibbles (t : Q) :
  (16 <= t)%Q -> (t <= 31)%Q ->
  exists a b,
    tempToPioneerHex t = [a; b]
    /\ a = 31 - Qfloor t /\ 0 <= a <= 15 /\ 0 <= b <= 12.
Proof.
  intros Hlo Hhi.
  assert (H0 : (0 <= t)%Q) by (eapply Qle_trans; [|exact Hlo]; discriminate).
  assert (Hn : 16 <= Qfloor t < 32).
  { apply Qfloor_bounds; [exact Hlo|].
    eapply Qle_lt_trans; [exact Hhi | reflexivity]. }
  rewrite (tempToPioneerHex_nonneg t H0).
  unfold to_uchar. rewrite Z.mod_small by lia.
  eexists _, _. split; [reflexivity|].
  pose proof (Z.mod_pos_bound (Qfloor (t * 4)) 4 ltac:(lia)). lia.
Qed.

Lemma tempToPioneerHex_nibbles_witness :
  exists a b,
    tempToPioneerHex (81 # 4) = [a; b]
    /\ a = 31 - Qfloor (81 # 4) /\ 0 <= a <= 15 /\ 0 <= b <= 12.
Proof. apply tempToPioneerHex_nibbles; discriminate. Defined.

(** X5. For a temperature from 0 up to, but not including, 32, decoding
    the two bytes of the encoding gives the temperature rounded down to a
    quarter. *)
Theorem decode_encoded_rounds_down (t : Q) :
  (0 <= t)%Q -> (t < 32)%Q -> decode_encoded t == toNearestQuarter t.
Proof. apply decode_encoded_quantized. Qed.

Lemma decode_encoded_rounds_down_witness :
  decode_encoded (203 # 10) == toNearestQuarter (203 # 10).
Proof. apply decode_encoded_rounds_down; reflexivity || discriminate. Defined.

Lemma encode_decoded_table :
  forallb (fun f =>
    forallb (fun l =>
      bool_decide (tempToPioneerHex (fromPioneerHex (Z.of_nat f) l)
                   = [Z.of_nat f; l])) [0x0; 0x4; 0x8; 0xc])
    (seq 0 32) = true.
Proof. vm_compute. reflexivity. Qed.

(** X6. Encoding what was decoded gives the two bytes back, for a first
    byte from 0 to 31 and a second byte among 0x0, 0x4, 0x8, 0xc. *)
Theorem encode_decoded (first_nibble last_nibble : Z) :
  0 <= first_nibble <= 31 ->
  last_nibble = 0x0 \/ last_nibble = 0x4 \/ last_nibble = 0x8
  \/ last_nibble = 0xc ->
  tempToPioneerHex (fromPioneerHex first_nibble last_nibble)
  = [first_nibble; last_nibble].
Proof.
  intros Hf Hl.
  pose proof encode_decoded_table as Htab.
  rewrite forallb_forall in Htab.
  specialize (Htab (Z.to_nat first_nibble)).
  rewrite Z2Nat.id in Htab by lia.
  assert (Hin : In (Z.to_nat first_nibble) (seq 0 32)) by (apply in_seq; lia).
  specialize (Htab Hin). rewrite forallb_forall in Htab.
  assert (Hin' : In last_nibble [0x0; 0x4; 0x8; 0xc])
    by (destruct Hl as [-> | [-> | [-> | ->]]]; simpl; tauto).
  apply (Htab last_nibble) in Hin'.
  apply bool_decide_eq_true in Hin'. exact Hin'.
Qed.

Lemma encode_decoded_witness :
  tempToPioneerHex (fromPioneerHex 0x0b 0x8) = [0x0b; 0x8].
Proof. apply encode_decoded; [lia | tauto]. Defined.

(** ** More on the XOR checksum *)

Lemma calc_xor_checksum_snoc (l : list Z) (c : Z) :
  calc_xor_checksum (l ++ [c]) = Z.lxor (calc_xor_checksum l) c.
Proof.
  rewrite calc_xor_checksum_app, (calc_xor_checksum_cons c []).
  unfold calc_xor_checksum at 2. simpl. rewrite Z.lxor_0_r. reflexivity.
Qed.

Lemma calc_xor_checksum_perm (l l' : list Z) :
  Permutation l l' -> calc_xor_checksum l = calc_xor_checksum l'.
Proof.
  induction 1 as [|x l l' _ IH|x y l|l l' l'' _ IH1 _ IH2].
  - reflexivity.
  - rewrite !calc_xor_checksum_cons, IH. reflexivity.
  - rewrite !calc_xor_checksum_cons, <- !Z.lxor_assoc, (Z.lxor_comm y x).
    reflexivity.
  - congruence.
Qed.

(** X7. [check_xor_checksum] has no result exactly on the empty vector,
    and it accepts a vector exactly when the vector is not empty and the
    XOR of all its bytes, the final one included, is 0. *)
Theorem check_xor_checksum_accepts_zero_fold (l : list Z) :
  (check_xor_checksum l = None <-> l = [])
  /\ (check_xor_checksum l = Some true
      <-> l <> [] /\ calc_xor_checksum l = 0).
Proof.
  destruct l as [|c l _] using rev_ind.
  - split; [split; reflexivity|].
    split; [discriminate | intros [H _]; congruence].
  - rewrite check_xor_checksum_snoc, calc_xor_checksum_snoc.
    split.
    + split; [discriminate | intros H; destruct l; discriminate].
    + split.
      * intros H. injection H as H. apply Z.eqb_eq in H.
        split; [destruct l; discriminate|].
        rewrite H. apply Z.lxor_nilpotent.
      * intros [_ H]. apply Z.lxor_eq in H.
        f_equal. apply Z.eqb_eq, H.
Qed.

(** X8. The checksum does not depend on the order of the bytes, so a
    sequence whose bytes were rearranged still passes
    [check_xor_checksum] with the checksum of the original. *)
Theorem calc_xor_checksum_order_independent (b b' : list Z) :
  Permutation b b' ->
  calc_xor_checksum b' = calc_xor_checksum b
  /\ check_xor_checksum (b' ++ [calc_xor_checksum b]) = Some true.
Proof.
  intros Hperm. apply calc_xor_checksum_perm in Hperm.
  split; [congruence|].
  rewrite check_xor_checksum_snoc, Hperm, Z.eqb_refl. reflexivity.
Qed.

Lemma calc_xor_checksum_order_independent_witness :
  calc_xor_checksum [0x01; 0xbb; 0x00] = calc_xor_checksum [0xbb; 0x00; 0x01]
  /\ check_xor_checksum
       ([0x01; 0xbb; 0x00] ++ [calc_xor_checksum [0xbb; 0x00; 0x01]])
     = Some true.
Proof.
  apply calc_xor_checksum_order_independent.
  apply perm_trans with (l' := [0xbb; 0x01; 0x00]);
    [apply perm_skip, perm_swap | apply perm_swap].
Defined.

(** X9. The checksum of two sequences put one after the other is the XOR
    of their checksums, and the checksum of a sequence followed by its own
    checksum is 0. *)
Theorem calc_xor_checksum_concat (l1 l2 : list Z) :
  calc_xor_checksum (l1 ++ l2)
  = Z.lxor (calc_xor_checksum l1) (calc_xor_checksum l2)
  /\ calc_xor_checksum (l1 ++ [calc_xor_checksum l1]) = 0.
Proof.
  split; [apply calc_xor_checksum_app|].
  rewrite calc_xor_checksum_snoc. apply Z.lxor_nilpotent.
Qed.

(** X10. On a sequence of bytes the checksum is a byte: the accumulator
    never leaves the range of [unsigned char]. *)
Theorem calc_xor_checksum_in_byte_range (l : list Z) :
  Forall is_byte l -> is_byte (calc_xor_checksum l).
Proof. apply calc_xor_checksum_is_byte. Qed.

Lemma calc_xor_checksum_in_byte_range_witness :
  is_byte (calc_xor_checksum [0xbb; 0x00; 0x01; 0x03]).
Proof.
  apply calc_xor_checksum_in_byte_range.
  repeat (apply Forall_cons_2; [unfold is_byte; lia|]). apply Forall_nil_2.
Defined.

(** X11. Flipping the same bit in two different bytes goes unnoticed:
    the altered sequence followed by the original checksum passes
    [check_xor_checksum]. *)
Theorem check_xor_checksum_misses_double_flip
    (b : list Z) (i1 i2 : nat) (x1 x2 j : Z) :
  i1 <> i2 -> b !! i1 = Some x1 -> b !! i2 = Some x2 ->
  check_xor_checksum
    (<[i2 := flip_bit j x2]> (<[i1 := flip_bit j x1]> b)
       ++ [calc_xor_checksum b])
  = Some true.
Proof.
  intros Hne H1 H2.
  rewrite check_xor_checksum_snoc.
  rewrite (calc_xor_checksum_insert _ i2 x2)
    by (rewrite list_lookup_insert_ne by exact Hne; exact H2).
  rewrite (calc_xor_checksum_insert b i1 x1 _ H1).
  unfold flip_bit.
  rewrite <- !(Z.lxor_assoc x1 x1), <- !(Z.lxor_assoc x2 x2),
    !Z.lxor_nilpotent, !Z.lxor_0_l.
  rewrite Z.lxor_assoc, Z.lxor_nilpotent, Z.lxor_0_r, Z.eqb_refl.
  reflexivity.
Qed.

Lemma check_xor_checksum_misses_double_flip_witness :
  check_xor_checksum
    (<[2%nat := flip_bit 3 0x01]> (<[0%nat := flip_bit 3 0xbb]>
                                     [0xbb; 0x00; 0x01])
       ++ [calc_xor_checksum [0xbb; 0x00; 0x01]])
  = Some true.
Proof.
  apply (check_xor_checksum_misses_double_flip [0xbb; 0x00; 0x01] 0 2);
    [discriminate | reflexivity | reflexivity].
Defined.

(** ** Reading the command vector *)

Lemma vec_modify_lookup_ne (i j : nat) (f : Z -> Z) (s : vec_state) :
  i <> j -> elems (vec_modify i f s) !! j = elems s !! j.
Proof.
  intros Hij. unfold vec_modify.
  destruct (elems s !! i); simpl; [|reflexivity].
  apply list_lookup_insert_ne, Hij.
Qed.

Lemma vec_modify_lookup_eq (i : nat) (f : Z -> Z) (s : vec_state) :
  elems (vec_modify i f s) !! i = f <$> elems s !! i.
Proof.
  unfold vec_modify. destruct (elems s !! i) as [x|] eqn:Hx; simpl.
  - apply list_lookup_insert_eq. eapply lookup_lt_Some, Hx.
  - exact Hx.
Qed.

(** A read-modify-write that computes the value already there changes
    nothing. *)
Lemma vec_modify_fixed (i : nat) (f : Z -> Z) (s : vec_state) (x : Z) :
  elems s !! i = Some x -> f x = x -> vec_modify i f s = s.
Proof.
  intros Hx Hf. unfold vec_modify. rewrite Hx, Hf.
  destruct s as [l st]. simpl in *. f_equal. apply list_insert_id, Hx.
Qed.

Lemma vec_modify_agree (i : nat) (f g : Z -> Z) (s : vec_state) (x : Z) :
  elems s !! i = Some x -> f x = g x -> vec_modify i f s = vec_modify i g s.
Proof. intros Hx Hfg. unfold vec_modify. rewrite Hx, Hfg. reflexivity. Qed.

Lemma or_at_lookup_ne (i j : nat) (x : Z) (s : vec_state) :
  i <> j -> elems (or_at i x s) !! j = elems s !! j.
Proof. apply vec_modify_lookup_ne. Qed.

Lemma and_at_lookup_ne (i j : nat) (x : Z) (s : vec_state) :
  i <> j -> elems (and_at i x s) !! j = elems s !! j.
Proof. apply vec_modify_lookup_ne. Qed.

Lemma when_or_at_lookup_ne (c : bool) (i j : nat) (x : Z) (s : vec_state) :
  i <> j -> elems (when c (or_at i x) s) !! j = elems s !! j.
Proof. destruct c; [apply or_at_lookup_ne | reflexivity]. Qed.

Lemma or_at_lookup_eq (i : nat) (x : Z) (s : vec_state) :
  elems (or_at i x s) !! i = (fun b => to_uchar (Z.lor b x)) <$> elems s !! i.
Proof. apply vec_modify_lookup_eq. Qed.

Lemma and_at_lookup_eq (i : nat) (x : Z) (s : vec_state) :
  elems (and_at i x s) !! i = (fun b => to_uchar (Z.land b x)) <$> elems s !! i.
Proof. apply vec_modify_lookup_eq. Qed.

Lemma when_or_at_lookup_eq (c : bool) (i : nat) (x : Z) (s : vec_state) :
  elems (when c (or_at i x) s) !! i
  = (fun b => if c then to_uchar (Z.lor b x) else b) <$> elems s !! i.
Proof.
  destruct c; simpl; [apply or_at_lookup_eq|].
  destruct (elems s !! i); reflexivity.
Qed.

(** Follows one element of the vector back through the stores. *)
Ltac trace_back :=
  repeat first
    [ rewrite when_or_at_lookup_ne by lia
    | rewrite or_at_lookup_ne by lia
    | rewrite and_at_lookup_ne by lia
    | rewrite when_or_at_lookup_eq
    | rewrite or_at_lookup_eq
    | rewrite and_at_lookup_eq ].

Lemma tempToPioneerHex_byte_pair (t : Q) :
  is_byte (tempToPioneerHex t !!! 0%nat)
  /\ is_byte (tempToPioneerHex t !!! 1%nat).
Proof.
  rewrite tempToPioneerHex_bytes. cbn [lookup_total list_lookup_total].
  split; [apply to_uchar_is_byte|].
  pose proof (Z.mod_pos_bound (Qfloor (t * 4)) 4 ltac:(lia)).
  unfold is_byte. lia.
Qed.

Lemma to_uchar_lor_0 (a : Z) : is_byte a -> to_uchar (Z.lor 0 a) = a.
Proof.
  intros Ha. rewrite Z.lor_0_l. unfold to_uchar. apply Z.mod_small, Ha.
Qed.

(** The vector copied into the frame, element by element. *)
Lemma final_command_elems mode t w ud lr sm b1 b2 b3 b4 b5 b6 :
  elems (final_command mode t w ud lr sm b1 b2 b3 b4 b5 b6)
  = body_bytes mode t w ud lr sm b1 b2 b3 b4 b5.
Proof.
  destruct (tempToPioneerHex_byte_pair t) as [Ha Hb].
  apply list_eq. intros i.
  destruct (decide (i < 24)%nat) as [Hi|Hi].
  - unfold final_command, set_temp_and_swing, set_mode, set_flags, body_bytes,
      flags_byte, mode_byte, fan_byte, swing_byte.
    do 24 (destruct i as [|i];
           [ destruct w; unfold set_wind_speed; trace_back;
             cbn [lookup list_lookup fmap option_fmap option_map elems
                  command_template];
             rewrite ?(to_uchar_lor_0 _ Ha), ?(to_uchar_lor_0 _ Hb);
             try reflexivity;
             f_equal;
             first [ destruct b1, b2, b3, b4; reflexivity
                   | destruct b6, mode; reflexivity
                   | destruct b5, (FanUpDown.is_flow ud); reflexivity
                   | destruct (FanLeftRight.is_flow lr); reflexivity
                   | destruct sm; reflexivity ]
           |]).
    lia.
  - rewrite !lookup_ge_None_2; [reflexivity | simpl; lia |].
    rewrite final_command_length. lia.
Qed.

(** ** The frame as a function of the arguments *)

Lemma generate_message_frame mode t w ud lr sm b1 b2 b3 b4 b5 b6 :
  (16 <= t)%Q -> (t <= 31)%Q ->
  generate_message mode t w ud lr sm b1 b2 b3 b4 b5 b6
  = (header ++ body_bytes mode t w ud lr sm b1 b2 b3 b4 b5)
    ++ [calc_xor_checksum
          (header ++ body_bytes mode t w ud lr sm b1 b2 b3 b4 b5)].
Proof.
  intros Hlo Hhi.
  destruct (generate_message_accepted mode t w ud lr sm b1 b2 b3 b4 b5 b6
              Hlo Hhi) as [_ ->].
  rewrite final_command_elems. reflexivity.
Qed.

(** Two accepted calls return the same frame exactly when their bodies
    are the same. *)
Lemma generate_message_eq_iff
    mode t w ud lr sm b1 b2 b3 b4 b5 b6
    mode' t' w' ud' lr' sm' b1' b2' b3' b4' b5' b6' :
  (16 <= t)%Q -> (t <= 31)%Q -> (16 <= t')%Q -> (t' <= 31)%Q ->
  generate_message mode t w ud lr sm b1 b2 b3 b4 b5 b6
  = generate_message mode' t' w' ud' lr' sm' b1' b2' b3' b4' b5' b6'
  <-> body_bytes mode t w ud lr sm b1 b2 b3 b4 b5
      = body_bytes mode' t' w' ud' lr' sm' b1' b2' b3' b4' b5'.
Proof.
  intros Hlo Hhi Hlo' Hhi'.
  rewrite (generate_message_frame mode t w ud lr sm b1 b2 b3 b4 b5 b6 Hlo Hhi).
  rewrite (generate_message_frame mode' t' w' ud' lr' sm' b1' b2' b3' b4' b5'
             b6' Hlo' Hhi').
  split.
  - intros H. apply app_inj_tail in H as [H _].
    apply app_inv_head in H. exact H.
  - intros ->. reflexivity.
Qed.

(** X12. For a temperature from 16 to 31 and both swing settings Auto, the
    frame is the header, the 24 body bytes written out in [body_bytes] and
    the checksum of these 28 bytes: byte 3 holds the power, display,
    buzzer and eco flags, byte 4 the mode on top of the fan-speed bits,
    byte 6 the heater flag and the fan code, byte 7 is 0x80, bytes 9 and
    11 hold the temperature, byte 15 the sleep mode. *)
Theorem generate_message_closed_form mode t w sm b1 b2 b3 b4 b5 b6 :
  (16 <= t)%Q -> (t <= 31)%Q ->
  generate_message mode t w FanUpDown.AUTO FanLeftRight.AUTO sm
    b1 b2 b3 b4 b5 b6
  = (header ++ body_bytes mode t w FanUpDown.AUTO FanLeftRight.AUTO sm
               b1 b2 b3 b4 b5)
    ++ [calc_xor_checksum
          (header ++ body_bytes mode t w FanUpDown.AUTO FanLeftRight.AUTO sm
                       b1 b2 b3 b4 b5)].
Proof. apply generate_message_frame. Qed.

Lemma generate_message_closed_form_witness :
  generate_message Mode.COOL (89 # 4) WindSpeed.TWO FanUpDown.AUTO
    FanLeftRight.AUTO SleepMode.CHILD true false true true false true
  = (header ++ body_bytes Mode.COOL (89 # 4) WindSpeed.TWO FanUpDown.AUTO
               FanLeftRight.AUTO SleepMode.CHILD true false true true false)
    ++ [calc_xor_checksum
          (header ++ body_bytes Mode.COOL (89 # 4) WindSpeed.TWO
                       FanUpDown.AUTO FanLeftRight.AUTO SleepMode.CHILD
                       true false true true false)].
Proof. apply generate_message_closed_form; discriminate. Defined.

(** X13. The health flag never reaches the frame: the bit it sets in body
    byte 4 is already set in the template, so the call returns the same
    frame with the flag on and off. *)
Theorem health_flag_has_no_effect mode t w ud lr sm b1 b2 b3 b4 b5 :
  generate_message mode t w ud lr sm b1 b2 b3 b4 b5 true
  = generate_message mode t w ud lr sm b1 b2 b3 b4 b5 false.
Proof.
  unfold generate_message. rewrite !final_command_elems. reflexivity.
Qed.

(** X14. With both swing settings Auto, the power, display, buzzer and eco
    flags, the heater flag and the sleep mode can be read back from an
    accepted frame: they are bits 2, 6, 5 and 7 of frame byte 7, bit 7 of
    frame byte 10, and frame byte 19. *)
Theorem flags_read_back mode t w sm b1 b2 b3 b4 b5 b6 :
  (16 <= t)%Q -> (t <= 31)%Q ->
  let frame := generate_message mode t w FanUpDown.AUTO FanLeftRight.AUTO sm
                 b1 b2 b3 b4 b5 b6 in
  Z.testbit (frame !!! 7%nat) 2 = b1
  /\ Z.testbit (frame !!! 7%nat) 6 = b2
  /\ Z.testbit (frame !!! 7%nat) 5 = b3
  /\ Z.testbit (frame !!! 7%nat) 7 = b4
  /\ Z.testbit (frame !!! 10%nat) 7 = b5
  /\ frame !!! 19%nat = SleepMode.code sm.
Proof.
  intros Hlo Hhi frame. subst frame.
  rewrite (generate_message_frame mode t w FanUpDown.AUTO FanLeftRight.AUTO
             sm b1 b2 b3 b4 b5 b6 Hlo Hhi).
  cbn [app header body_bytes lookup_total list_lookup_total].
  unfold flags_byte, fan_byte.
  split; [|split; [|split; [|split; [|split]]]].
  1-4: destruct b1, b2, b3, b4; reflexivity.
  - destruct b5, w; reflexivity.
  - reflexivity.
Qed.

Lemma flags_read_back_witness :
  let frame := generate_message Mode.COOL (89 # 4) WindSpeed.TWO
                 FanUpDown.AUTO FanLeftRight.AUTO SleepMode.CHILD
                 true false true true false true in
  Z.testbit (frame !!! 7%nat) 2 = true
  /\ Z.testbit (frame !!! 7%nat) 6 = false
  /\ Z.testbit (frame !!! 7%nat) 5 = true
  /\ Z.testbit (frame !!! 7%nat) 7 = true
  /\ Z.testbit (frame !!! 10%nat) 7 = false
  /\ frame !!! 19%nat = 0x3.
Proof.
  apply (flags_read_back Mode.COOL (89 # 4) WindSpeed.TWO SleepMode.CHILD
           true false true true false true); discriminate.
Defined.

(** ** Which arguments the frame tells apart *)

Ltac body_byte H j :=
  apply (f_equal (fun l : list Z => l !! j)) in H;
  cbn [body_bytes lookup list_lookup] in H;
  injection H as H.

(** X15. With both swing settings Auto and the other arguments fixed,
    two modes give the same frame exactly when they are equal or are Cool
    and Fan: the codes 0x3 and 0x7 differ in a bit the template already
    sets in body byte 4. *)
Theorem mode_collisions mode mode' t w sm b1 b2 b3 b4 b5 b6 :
  (16 <= t)%Q -> (t <= 31)%Q ->
  generate_message mode t w FanUpDown.AUTO FanLeftRight.AUTO sm
    b1 b2 b3 b4 b5 b6
  = generate_message mode' t w FanUpDown.AUTO FanLeftRight.AUTO sm
      b1 b2 b3 b4 b5 b6
  <-> mode = mode'
      \/ (mode = Mode.COOL /\ mode' = Mode.FAN)
      \/ (mode = Mode.FAN /\ mode' = Mode.COOL).
Proof.
  intros Hlo Hhi. rewrite generate_message_eq_iff by assumption.
  split.
  - intros H. body_byte H 4%nat. revert H. unfold mode_byte.
    destruct w, mode, mode'; vm_compute; intros H;
      try discriminate H; tauto.
  - assert (Hcf : mode_byte w Mode.COOL = mode_byte w Mode.FAN)
      by (destruct w; reflexivity).
    intros [-> | [[-> ->] | [-> ->]]]; unfold body_bytes;
      rewrite ?Hcf; reflexivity.
Qed.

Lemma mode_collisions_witness :
  generate_message Mode.COOL 20 WindSpeed.AUTO FanUpDown.AUTO
    FanLeftRight.AUTO SleepMode.OFF true true true false false false
  = generate_message Mode.FAN 20 WindSpeed.AUTO FanUpDown.AUTO
      FanLeftRight.AUTO SleepMode.OFF true true true false false false.
Proof.
  apply mode_collisions; [discriminate | discriminate |].
  right. left. split; reflexivity.
Defined.

(** X16. With both swing settings Auto and the other arguments fixed,
    two fan speeds give the same frame exactly when they are equal, or are
    Speed1 and Speed2, or are Speed3 and Speed4: the template sets bit
    0x04 of body byte 6, where the codes 0x2 and 0x6, and 0x3 and 0x7,
    differ. *)
Theorem fan_speed_collisions mode t w w' sm b1 b2 b3 b4 b5 b6 :
  (16 <= t)%Q -> (t <= 31)%Q ->
  generate_message mode t w FanUpDown.AUTO FanLeftRight.AUTO sm
    b1 b2 b3 b4 b5 b6
  = generate_message mode t w' FanUpDown.AUTO FanLeftRight.AUTO sm
      b1 b2 b3 b4 b5 b6
  <-> w = w'
      \/ (w = WindSpeed.ONE /\ w' = WindSpeed.TWO)
      \/ (w = WindSpeed.TWO /\ w' = WindSpeed.ONE)
      \/ (w = WindSpeed.THREE /\ w' = WindSpeed.FOUR)
      \/ (w = WindSpeed.FOUR /\ w' = WindSpeed.THREE).
Proof.
  intros Hlo Hhi. rewrite generate_message_eq_iff by assumption.
  split.
  - intros H. pose proof H as H6.
    body_byte H 4%nat. body_byte H6 6%nat. revert H H6.
    unfold mode_byte, fan_byte.
    destruct w, w', mode, b5; vm_compute;
      intros H H6; try discriminate H; try discriminate H6; tauto.
  - assert (H12 : forall m h,
               mode_byte WindSpeed.ONE m = mode_byte WindSpeed.TWO m
               /\ fan_byte h WindSpeed.ONE FanUpDown.AUTO
                  = fan_byte h WindSpeed.TWO FanUpDown.AUTO).
    { intros m h. destruct h; split; reflexivity. }
    assert (H34 : forall m h,
               mode_byte WindSpeed.THREE m = mode_byte WindSpeed.FOUR m
               /\ fan_byte h WindSpeed.THREE FanUpDown.AUTO
                  = fan_byte h WindSpeed.FOUR FanUpDown.AUTO).
    { intros m h. destruct h; split; reflexivity. }
    intros [-> | [[-> ->] | [[-> ->] | [[-> ->] | [-> ->]]]]];
      unfold body_bytes;
      rewrite ?(proj1 (H12 mode b5)), ?(proj2 (H12 mode b5)),
        ?(proj1 (H34 mode b5)), ?(proj2 (H34 mode b5));
      reflexivity.
Qed.

Lemma fan_speed_collisions_witness :
  generate_message Mode.HEAT 20 WindSpeed.THREE FanUpDown.AUTO
    FanLeftRight.AUTO SleepMode.OFF true true true false false false
  = generate_message Mode.HEAT 20 WindSpeed.FOUR FanUpDown.AUTO
      FanLeftRight.AUTO SleepMode.OFF true true true false false false.
Proof.
  apply fan_speed_collisions; [discriminate | discriminate |].
  right. right. right. left. split; reflexivity.
Defined.

(** ** The temperature in the frame *)

(** X18. With both swing settings Auto, decoding frame bytes 13 and 15 of
    an accepted frame with [fromPioneerHex] gives the temperature of the
    call rounded down to a quarter degree. *)
Theorem temperature_read_back mode t w sm b1 b2 b3 b4 b5 b6 :
  (16 <= t)%Q -> (t <= 31)%Q ->
  let frame := generate_message mode t w FanUpDown.AUTO FanLeftRight.AUTO sm
                 b1 b2 b3 b4 b5 b6 in
  fromPioneerHex (frame !!! 13%nat) (frame !!! 15%nat)
  == toNearestQuarter t.
Proof.
  intros Hlo Hhi frame. subst frame.
  rewrite (generate_message_frame mode t w FanUpDown.AUTO FanLeftRight.AUTO
             sm b1 b2 b3 b4 b5 b6 Hlo Hhi).
  cbn [app header body_bytes lookup_total list_lookup_total].
  apply decode_encoded_quantized.
  - eapply Qle_trans; [|exact Hlo]. discriminate.
  - eapply Qle_lt_trans; [exact Hhi|]. reflexivity.
Qed.

Lemma temperature_read_back_witness :
  let frame := generate_message Mode.HEAT (203 # 10) WindSpeed.AUTO
                 FanUpDown.AUTO FanLeftRight.AUTO SleepMode.OFF
                 true true true false false false in
  fromPioneerHex (frame !!! 13%nat) (frame !!! 15%nat)
  == toNearestQuarter (203 # 10).
Proof.
  apply (temperature_read_back Mode.HEAT (203 # 10) WindSpeed.AUTO
           SleepMode.OFF true true true false false false); discriminate.
Defined.

(** X19. With both swing settings Auto and the other arguments fixed,
    two accepted temperatures give the same frame exactly when they lie in
    the same quarter-degree step. *)
Theorem temperature_step_decides_frame mode t t' w sm b1 b2 b3 b4 b5 b6 :
  (16 <= t)%Q -> (t <= 31)%Q -> (16 <= t')%Q -> (t' <= 31)%Q ->
  generate_message mode t w FanUpDown.AUTO FanLeftRight.AUTO sm
    b1 b2 b3 b4 b5 b6
  = generate_message mode t' w FanUpDown.AUTO FanLeftRight.AUTO sm
      b1 b2 b3 b4 b5 b6
  <-> Qfloor (t * 4) = Qfloor (t' * 4).
Proof.
  intros Hlo Hhi Hlo' Hhi'. rewrite generate_message_eq_iff by assumption.
  assert (H0 : (0 <= t)%Q) by (eapply Qle_trans; [|exact Hlo]; discriminate).
  assert (H0' : (0 <= t')%Q) by (eapply Qle_trans; [|exact Hlo']; discriminate).
  assert (Hn : 16 <= Qfloor t < 32).
  { apply Qfloor_bounds; [exact Hlo|].
    eapply Qle_lt_trans; [exact Hhi | reflexivity]. }
  assert (Hn' : 16 <= Qfloor t' < 32).
  { apply Qfloor_bounds; [exact Hlo'|].
    eapply Qle_lt_trans; [exact Hhi' | reflexivity]. }
  split.
  - intros H. unfold body_bytes in H.
    rewrite (tempToPioneerHex_nonneg t H0),
      (tempToPioneerHex_nonneg t' H0') in H.
    cbn [lookup_total list_lookup_total] in H.
    pose proof (Z.div_mod (Qfloor (t * 4)) 4 ltac:(lia)) as Hk.
    pose proof (Z.div_mod (Qfloor (t' * 4)) 4 ltac:(lia)) as Hk'.
    rewrite Qfloor_times_4 in Hk, Hk'.
    set (k := Qfloor (t * 4)) in *. set (k' := Qfloor (t' * 4)) in *.
    injection H as H H11.
    unfold to_uchar in H. rewrite !Z.mod_small in H by lia.
    lia.
  - intros H. unfold body_bytes, tempToPioneerHex, toNearestQuarter, floorQ.
    rewrite H. reflexivity.
Qed.

Lemma temperature_step_decides_frame_witness :
  generate_message Mode.HEAT (201 # 10) WindSpeed.AUTO FanUpDown.AUTO
    FanLeftRight.AUTO SleepMode.OFF true true true false false false
  = generate_message Mode.HEAT (202 # 10) WindSpeed.AUTO FanUpDown.AUTO
      FanLeftRight.AUTO SleepMode.OFF true true true false false false.
Proof.
  apply temperature_step_decides_frame;
    [discriminate | discriminate | discriminate | discriminate | reflexivity].
Defined.

(** ** Stray accesses *)



(** X21. A refused call touches no vector; every accepted call, whatever
    its arguments, makes exactly two accesses outside the 24 elements of
    [command], at indices 28 and 29. *)
Theorem generate_message_stray_always mode t w ud lr sm b1 b2 b3 b4 b5 b6 :
  generate_message_stray mode t w ud lr sm b1 b2 b3 b4 b5 b6
  = if out_of_range t then [] else [28; 29]%nat.
Proof.
  unfold generate_message_stray. destruct (out_of_range t); [reflexivity|].
  apply final_command_stray.
Qed.

(** ** Where the stores past the end land *)

Lemma vec_modify_elems_alter (i : nat) (f : Z -> Z) (s : vec_state) :
  elems (vec_modify i f s) = alter f i (elems s).
Proof.
  apply list_eq. intros j. rewrite list_lookup_alter.
  destruct (decide (i = j)) as [<-|Hij].
  - apply vec_modify_lookup_eq.
  - apply vec_modify_lookup_ne, Hij.
Qed.

Lemma vec_modify_extends_inside i f s m a :
  (i < length (elems s))%nat -> extends s m a ->
  extends (vec_modify i f s) (vec_modify i f m) a.
Proof.
  unfold extends. intros Hi H.
  rewrite !vec_modify_elems_alter, H. apply alter_app_l, Hi.
Qed.

Lemma vec_modify_extends_outside i f s m a :
  (length (elems s) <= i)%nat -> extends s m a ->
  extends (vec_modify i f s) (vec_modify i f m)
          (alter f (i - length (elems s))%nat a).
Proof.
  unfold extends. intros Hi H.
  rewrite (vec_modify_outside i f s Hi), vec_modify_elems_alter, H.
  simpl. apply alter_app_r_alt, Hi.
Qed.

Lemma or_at_extends i x s m a :
  (i < length (elems s))%nat -> extends s m a ->
  extends (or_at i x s) (or_at i x m) a.
Proof. apply vec_modify_extends_inside. Qed.

Lemma and_at_extends i x s m a :
  (i < length (elems s))%nat -> extends s m a ->
  extends (and_at i x s) (and_at i x m) a.
Proof. apply vec_modify_extends_inside. Qed.

Lemma when_or_at_extends c i x s m a :
  (i < length (elems s))%nat -> extends s m a ->
  extends (when c (or_at i x) s) (when c (or_at i x) m) a.
Proof. destruct c; [apply or_at_extends | intros _ H; exact H]. Qed.

Ltac extends_inside :=
  repeat first [ apply or_at_extends; [inside_24|]
               | apply and_at_extends; [inside_24|]
               | apply when_or_at_extends; [inside_24|] ];
  try assumption.

Lemma set_flags_extends sm b1 b2 b3 b4 b5 b6 s m a :
  length (elems s) = 24%nat -> extends s m a ->
  extends (set_flags sm b1 b2 b3 b4 b5 b6 s)
          (set_flags sm b1 b2 b3 b4 b5 b6 m) a.
Proof. intros Hlen H. unfold set_flags. extends_inside. Qed.

Lemma set_wind_speed_extends w s m a :
  length (elems s) = 24%nat -> extends s m a ->
  extends (set_wind_speed w s) (set_wind_speed w m) a.
Proof. intros Hlen H. destruct w; simpl; extends_inside. Qed.

Lemma set_mode_extends mode s m a :
  length (elems s) = 24%nat -> extends s m a ->
  extends (set_mode mode s) (set_mode mode m) a.
Proof. intros Hlen H. unfold set_mode. extends_inside. Qed.

Lemma set_temp_and_swing_extends t ud lr s m a :
  length (elems s) = 24%nat -> extends s m a ->
  extends (set_temp_and_swing t ud lr s) (set_temp_and_swing t ud lr m)
          (alter (fun b => to_uchar (Z.lor b (FanLeftRight.code lr))) 5%nat
             (alter (fun b => to_uchar (Z.lor b (FanUpDown.code ud))) 4%nat a)).
Proof.
  intros Hlen H. unfold set_temp_and_swing.
  set (s1 := when _ _ (or_at 11 _ (or_at 9 _ s))).
  set (m1 := when _ _ (or_at 11 _ (or_at 9 _ m))).
  assert (H1 : extends s1 m1 a) by (subst s1 m1; extends_inside).
  assert (Hlen1 : length (elems s1) = 24%nat)
    by (subst s1; autorewrite with vec_len; exact Hlen).
  pose proof (vec_modify_extends_outside 28
                (fun b => to_uchar (Z.lor b (FanUpDown.code ud))) s1 m1 a
                ltac:(lia) H1) as H2.
  rewrite Hlen1 in H2. change (28 - 24)%nat with 4%nat in H2.
  fold (or_at 28 (FanUpDown.code ud) s1) in H2.
  fold (or_at 28 (FanUpDown.code ud) m1) in H2.
  set (s2 := when _ _ (or_at 28 _ s1)).
  set (m2 := when _ _ (or_at 28 _ m1)).
  assert (H3 : extends s2 m2
                 (alter (fun b => to_uchar (Z.lor b (FanUpDown.code ud))) 4%nat a)).
  { subst s2 m2. apply when_or_at_extends; [|exact H2].
    autorewrite with vec_len. lia. }
  assert (Hlen2 : length (elems s2) = 24%nat)
    by (subst s2; autorewrite with vec_len; exact Hlen1).
  pose proof (vec_modify_extends_outside 29
                (fun b => to_uchar (Z.lor b (FanLeftRight.code lr))) s2 m2 _
                ltac:(lia) H3) as H4.
  rewrite Hlen2 in H4. exact H4.
Qed.

Lemma memory_after_stores_eq
    mode t w ud lr sm b1 b2 b3 b4 b5 b6 (after : list Z) :
  memory_after_stores mode t w ud lr sm b1 b2 b3 b4 b5 b6 after
  = elems (final_command mode t w ud lr sm b1 b2 b3 b4 b5 b6)
    ++ alter (fun b => to_uchar (Z.lor b (FanLeftRight.code lr))) 5%nat
         (alter (fun b => to_uchar (Z.lor b (FanUpDown.code ud))) 4%nat after).
Proof.
  unfold memory_after_stores, encode_steps, final_command.
  apply set_temp_and_swing_extends;
    [autorewrite with vec_len; reflexivity|].
  apply set_mode_extends; [autorewrite with vec_len; reflexivity|].
  apply set_wind_speed_extends; [autorewrite with vec_len; reflexivity|].
  apply set_flags_extends; reflexivity.
Qed.

(** X24. Seen in memory, the stores of [generate_message] leave in the 24
    bytes of the buffer exactly the vector [final_command] computes, and
    OR the vertical swing code into the byte 4 places behind the buffer
    and the horizontal swing code into the byte 5 places behind it; no
    other byte behind the buffer is touched. *)
Theorem stores_behind_the_vector
    mode t w ud lr sm b1 b2 b3 b4 b5 b6 (after : list Z) :
  memory_after_stores mode t w ud lr sm b1 b2 b3 b4 b5 b6 after
  = elems (final_command mode t w ud lr sm b1 b2 b3 b4 b5 b6)
    ++ alter (fun b => to_uchar (Z.lor b (FanLeftRight.code lr))) 5%nat
         (alter (fun b => to_uchar (Z.lor b (FanUpDown.code ud))) 4%nat after).
Proof. apply memory_after_stores_eq. Qed.

Lemma alter_lor_0_bytes (k : nat) (a : list Z) :
  Forall is_byte a -> alter (fun b => to_uchar (Z.lor b 0)) k a = a.
Proof.
  intros Ha. apply list_eq. intros j. rewrite list_lookup_alter.
  destruct (decide (k = j)) as [<-|_]; [|reflexivity].
  destruct (a !! k) as [x|] eqn:Hx; [|reflexivity]. simpl. f_equal.
  rewrite Z.lor_0_r. unfold to_uchar. apply Z.mod_small.
  exact (Forall_lookup_1 _ _ _ _ Ha Hx).
Qed.

(** X25. With both swing settings Auto the two stores past the end write
    back the bytes they read: the bytes behind the buffer are the same
    after the stores as before. *)
Theorem auto_swings_leave_memory_unchanged
    mode t w sm b1 b2 b3 b4 b5 b6 (after : list Z) :
  Forall is_byte after ->
  memory_after_stores mode t w FanUpDown.AUTO FanLeftRight.AUTO sm
    b1 b2 b3 b4 b5 b6 after
  = elems (final_command mode t w FanUpDown.AUTO FanLeftRight.AUTO sm
             b1 b2 b3 b4 b5 b6)
    ++ after.
Proof.
  intros Ha. rewrite memory_after_stores_eq.
  cbn [FanUpDown.code FanLeftRight.code].
  rewrite (alter_lor_0_bytes 4 after Ha), (alter_lor_0_bytes 5 after Ha).
  reflexivity.
Qed.

Lemma auto_swings_leave_memory_unchanged_witness :
  memory_after_stores Mode.HEAT 20 WindSpeed.AUTO FanUpDown.AUTO
    FanLeftRight.AUTO SleepMode.OFF true true true false false false
    [0x21; 0x00; 0x00; 0x00; 0xf7; 0x5a]
  = elems (final_command Mode.HEAT 20 WindSpeed.AUTO FanUpDown.AUTO
             FanLeftRight.AUTO SleepMode.OFF true true true false false false)
    ++ [0x21; 0x00; 0x00; 0x00; 0xf7; 0x5a].
Proof.
  apply auto_swings_leave_memory_unchanged.
  repeat (apply Forall_cons_2; [unfold is_byte; lia|]). apply Forall_nil_2.
Defined.
